(** * flutterproxy: a shallow embedding of the proxy's decision logic

    The development follows the Go packages of the repository:
    - [fakeca]       (fakeca/fakeca.go): the fake root authority,
    - [httpsproxy]   (httpsproxy/reverseproxy.go): the TLS terminating proxy,
    - [connectproxy] (connectproxy/connect.go): the CONNECT dispatcher.

    Go strings are byte sequences and are modelled by [string]; Go maps are
    [gmap]s; a pointer that the code tests against nil is an [option]; a
    library result [(v, err)] in which [v] is valid exactly when [err] is
    nil is a sum [A + error]. Calls into the Go standard library are taken
    through the interface [GoLib]; the effects they have on the outside
    world are threaded through an abstract world together with a trace of
    the calls made. *)

From stdpp Require Import gmap strings list fin_maps pretty.

Open Scope string_scope.

(** ** Package strings (the functions the repository calls) *)

Module gostrings.

(** [s[n:]] on a string that is long enough. *)
Fixpoint dropn (n : nat) (s : string) : string :=
  match n, s with
  | O, _ => s
  | S n', String _ s' => dropn n' s'
  | S _, EmptyString => EmptyString
  end.

(** [strings.HasPrefix(s, prefix)]:
    [len(s) >= len(prefix) && s[:len(prefix)] == prefix]. *)
Fixpoint HasPrefix (s prefix : string) {struct prefix} : bool :=
  match prefix, s with
  | EmptyString, _ => true
  | String c prefix', String d s' =>
      if decide (c = d) then HasPrefix s' prefix' else false
  | String _ _, EmptyString => false
  end.

(** [strings.TrimPrefix(s, prefix)]. *)
Definition TrimPrefix (s prefix : string) : string :=
  if HasPrefix s prefix then dropn (String.length prefix) s else s.

(** The scanning loop of [strings.Replace(s, old, new, -1)] for a non-empty
    [old]: the leftmost occurrence is replaced and scanning resumes after
    it. [skip] counts the bytes of a matched occurrence still to be passed
    over. *)
Fixpoint replaceFrom (old new : string) (skip : nat) (s : string) : string :=
  match s with
  | EmptyString => EmptyString
  | String c s' =>
      match skip with
      | S k => replaceFrom old new k s'
      | O =>
          if HasPrefix s old
          then new +:+ replaceFrom old new (String.length old - 1) s'
          else String c (replaceFrom old new 0 s')
      end
  end.

(** [strings.ReplaceAll(s, old, new)]. The repository only calls it with
    the non-empty [old = "127.0.0.1"]; Go's rune-wise behaviour for an empty
    [old] is outside the model, which then leaves [s] as it is. *)
Definition ReplaceAll (s old new : string) : string :=
  match old with
  | EmptyString => s
  | String _ _ => replaceFrom old new 0 s
  end.

(** The loop of [strings.Split(s, sep)] for a non-empty [sep]; [cur] is the
    field read so far. *)
Fixpoint splitFrom (sep : string) (skip : nat) (cur : string) (s : string)
  : list string :=
  match s with
  | EmptyString => [cur]
  | String c s' =>
      match skip with
      | S k => splitFrom sep k cur s'
      | O =>
          if HasPrefix s sep
          then cur :: splitFrom sep (String.length sep - 1) EmptyString s'
          else splitFrom sep 0 (cur +:+ String c EmptyString) s'
      end
  end.

(** [strings.Split(s, sep)]. The repository only splits on [","]; Go's
    explosion into runes for an empty [sep] is outside the model. *)
Definition Split (s sep : string) : list string :=
  match sep with
  | EmptyString => [s]
  | String _ _ => splitFrom sep 0 EmptyString s
  end.

End gostrings.

(** ** Data of the Go standard library that the repository handles *)

Definition bytes := list Byte.byte.

(** A Go [error] is represented by its [Error()] text; [None] is [nil]. *)
Definition error := string.

(** What a Go function call does: it returns, or the goroutine panics, or
    the process is ended by [log.Fatal]. *)
Inductive outcome (A : Type) : Type :=
  | Returns (a : A)
  | Panics (msg : string)
  | Fatal (msg : string).
Arguments Returns {A} a.
Arguments Panics {A} msg.
Arguments Fatal {A} msg.

Module url.
Record URL := mkURL {
  Scheme : string;
  Host : string;
  Path : string;
  RawQuery : string;
  Fragment : string
}.
End url.

Module http.
Record Request := mkRequest {
  Method : string;
  URL : url.URL;
  Host : string;
  Header : list (string * list string)
}.

Definition MethodConnect : string := "CONNECT".
Definition StatusOK : Z := 200.
Definition StatusTemporaryRedirect : Z := 307.
Definition StatusMethodNotAllowed : Z := 405.
Definition StatusServiceUnavailable : Z := 503.

(** [r.Host = host] on a request passed by pointer. *)
Definition setHost (r : Request) (host : string) : Request :=
  mkRequest (Method r) (URL r) host (Header r).
End http.

Module pem.
Record Block := mkBlock {
  Type_ : string;
  Headers : list (string * string);
  Bytes : bytes
}.
End pem.

Module rsa.
Record PublicKey := mkPublicKey { N : Z; E : Z }.
Record PrivateKey := mkPrivateKey {
  PublicKey_ : PublicKey;
  D : Z;
  Primes : list Z
}.
End rsa.

Module pkix.
Record Name := mkName {
  CommonName : string;
  Organization : list string;
  Country : list string;
  Province : list string;
  Locality : list string;
  StreetAddress : list string;
  PostalCode : list string
}.
End pkix.

Definition Time := Z.

Module x509.
Inductive ExtKeyUsage :=
  | ExtKeyUsageAny
  | ExtKeyUsageServerAuth
  | ExtKeyUsageClientAuth.

(** [KeyUsage] is a bit set: [1 << iota]. *)
Definition KeyUsageDigitalSignature : Z := Z.shiftl 1 0.
Definition KeyUsageCertSign : Z := Z.shiftl 1 5.

(** The fields of [x509.Certificate] that the repository sets. *)
Record Certificate := mkCertificate {
  SerialNumber : Z;
  Subject : pkix.Name;
  IPAddresses : list (list Z);
  NotBefore : Time;
  NotAfter : Time;
  SubjectKeyId : bytes;
  DNSNames : list string;
  ExtKeyUsage_ : list ExtKeyUsage;
  KeyUsage : Z;
  IsCA : bool;
  BasicConstraintsValid : bool
}.
End x509.

Module tls.
Record Certificate := mkCertificate {
  Certificate_ : list bytes;
  PrivateKey : option rsa.PrivateKey
}.

Definition VersionTLS12 : Z := 0x0303.
Definition CurveP256 : Z := 23.
Definition CurveP384 : Z := 24.
Definition CurveP521 : Z := 25.
Definition TLS_RSA_WITH_AES_256_CBC_SHA : Z := 0x0035.
Definition TLS_RSA_WITH_AES_256_GCM_SHA384 : Z := 0x009d.
Definition TLS_ECDHE_RSA_WITH_AES_256_CBC_SHA : Z := 0xc014.
Definition TLS_ECDHE_RSA_WITH_AES_256_GCM_SHA384 : Z := 0xc030.

Record Config := mkConfig {
  MinVersion : Z;
  CurvePreferences : list Z;
  PreferServerCipherSuites : bool;
  CipherSuites : list Z;
  Certificates : list Certificate
}.
End tls.

Module net.
(** A bound TCP listener; [Port] is the port of [listener.Addr()]. *)
Record Listener := mkListener { Port : Z }.
(** An open connection, named by the address that was dialled. *)
Record Conn := mkConn { RemoteAddr : string }.

Definition IPv4 (a b c d : Z) : list Z := [a; b; c; d].
Definition IPv6loopback : list Z := [0;0;0;0;0;0;0;0;0;0;0;0;0;0;0;1]%Z.
End net.

Module httputil.
(** [httputil.ReverseProxy]: the [Director] rewrites the outbound request
    in place before it is sent. *)
Record ReverseProxy := mkReverseProxy {
  Director : http.Request → http.Request
}.
End httputil.

Import gostrings.

(** ** The Go standard library as an interface

    [W] is the state of the world outside the program (the random source,
    the clock, the network). Functions that touch it take and return it. *)

Class GoLib (W : Type) := {
  (* encoding/pem: the block is nil when no PEM data is found *)
  pem_Decode : bytes → option pem.Block * bytes;
  (* pem.Encode into a fresh bytes.Buffer: the bytes written, and the error *)
  pem_Encode : pem.Block → bytes * option error;
  (* crypto/x509 *)
  x509_ParsePKCS1PrivateKey : bytes → option rsa.PrivateKey * option error;
  x509_ParseCertificate : bytes → x509.Certificate + error;
  x509_MarshalPKCS1PrivateKey : rsa.PrivateKey → bytes;
  x509_CreateCertificate :
    x509.Certificate → x509.Certificate → rsa.PublicKey → rsa.PrivateKey →
    W → (bytes + error) * W;
  (* crypto/rsa, reading rand.Reader *)
  rsa_GenerateKey : Z → W → (rsa.PrivateKey + error) * W;
  (* time *)
  time_Now : W → Time * W;
  time_AddDate : Time → Z → Z → Z → Time;
  (* crypto/tls *)
  tls_X509KeyPair : bytes → bytes → tls.Certificate + error;
  (* net/url *)
  url_Parse : string → url.URL + error;
  url_Hostname : url.URL → string;
  url_String : url.URL → string;
  (* net *)
  net_Listen : string → string → W → (net.Listener + error) * W;
  net_Dial : string → string → W → (net.Conn + error) * W;
  (* net/http: Hijack on the response writer of the public listener *)
  http_Hijack : W → (net.Conn + error) * W;
  (* net/http/httputil: the default director of a single-host proxy *)
  httputil_defaultDirector : url.URL → http.Request → http.Request
}.

(** The [Proxy] struct of package httpsproxy: [target] and [next] are nil
    until [StartServer] has run. It is declared here because the server
    that [StartServer] launches is named in the trace by its handler. *)
Module httpsproxy_data.
Record Proxy := mkProxy {
  cfg : tls.Config;
  target : option httputil.ReverseProxy;
  targetHost : string;
  next : option httputil.ReverseProxy;
  nextHost : string;
  prefixes : list string
}.
End httpsproxy_data.

(** The calls that are visible from outside, in the order they are made. *)
Inductive Event :=
  | EvNewCert (dnsNames : list string)
  | EvGenerateKey (bits : Z)
  | EvCreateCertificate (template parent : x509.Certificate)
  | EvListen (network address : string)
  | EvServeTLS (addr : string) (handler : httpsproxy_data.Proxy)
  | EvDial (network address : string)
  | EvWriteHeader (code : Z)
  | EvHijack
  | EvTunnel (dst src : net.Conn)
  | EvDone.

Section Effects.
Context {W : Type}.

Record state := mkState { world : W; trace : list Event }.

(** Computations that read and change the world. *)
Definition M (A : Type) : Type := state → A * state.

Definition ret {A} (a : A) : M A := fun s => (a, s).
Definition bind {A B} (m : M A) (k : A → M B) : M B :=
  fun s => let '(a, s') := m s in k a s'.

(** Record a call in the trace. *)
Definition emit (e : Event) : M unit :=
  fun s => (tt, mkState (world s) (trace s ++ [e])).

(** Lift a library call on the world, recording it. *)
Definition call {A} (e : Event) (f : W → A * W) : M A :=
  fun s => let '(a, w') := f (world s) in (a, mkState w' (trace s ++ [e])).

(** A library call that is not recorded (reading the clock). *)
Definition quiet {A} (f : W → A * W) : M A :=
  fun s => let '(a, w') := f (world s) in (a, mkState w' (trace s)).

End Effects.
Arguments state W : clear implicits.
Arguments M W A : clear implicits.

Notation "x ←← m ;; k" := (bind m (fun x => k))
  (at level 100, m at next level, right associativity,
   format "'[v' x  ←←  m ;;  '/' k ']'").
Notation "m ;;; k" := (bind m (fun _ => k))
  (at level 100, right associativity).

(** ** Package fakeca *)

Module fakeca.
Section fakeca.
Context {W : Type} `{GoLib W}.

Record FakeCA := mkFakeCA {
  PrivKey : rsa.PrivateKey;
  Cert : x509.Certificate;
  PrivKeyPEM : bytes;
  CertPEM : bytes
}.

Definition newName : pkix.Name :=
  pkix.mkName "Fake CA" ["Fake CA"] ["US"] ["California"] ["San Jose"]
    ["First Street"] ["95113"].

(** [FromKeyPair]. A nil [keyDER] is caught by the first test. The second
    test reads [privKey == nil || certDER.Type != "CERTIFICATE"]: when
    [privKey] is not nil the field [Type] of [certDER] is read whether or
    not [certDER] is nil. *)
Definition FromKeyPair (keyPEM certPEM : bytes)
  : outcome (option FakeCA * option error) :=
  let '(keyDER, _) := pem_Decode keyPEM in
  match keyDER with
  | None => Returns (None, Some "invalid private key")
  | Some keyBlock =>
      if negb (bool_decide (pem.Type_ keyBlock = "RSA PRIVATE KEY"))
      then Returns (None, Some "invalid private key")
      else
        let '(privKey, err) := x509_ParsePKCS1PrivateKey (pem.Bytes keyBlock) in
        match err with
        | Some e => Returns (None, Some e)
        | None =>
            let '(certDER, _) := pem_Decode certPEM in
            match privKey with
            | None => Returns (None, Some "invalid certificate")
            | Some key =>
                match certDER with
                | None =>
                    Panics "invalid memory address or nil pointer dereference"
                | Some certBlock =>
                    if negb (bool_decide (pem.Type_ certBlock = "CERTIFICATE"))
                    then Returns (None, Some "invalid certificate")
                    else
                      match x509_ParseCertificate (pem.Bytes certBlock) with
                      | inr e => Returns (None, Some e)
                      | inl cert =>
                          Returns (Some (mkFakeCA key cert keyPEM certPEM), None)
                      end
                end
            end
        end
  end.

(** The certificate template that [NewCert] fills in. *)
Definition leafTemplate (notBefore notAfter : Time) (dnsNames : list string)
  : x509.Certificate :=
  {| x509.SerialNumber := 1658;
     x509.Subject := newName;
     x509.IPAddresses := [net.IPv4 127 0 0 1; net.IPv6loopback];
     x509.NotBefore := notBefore;
     x509.NotAfter := notAfter;
     x509.SubjectKeyId := [Byte.x01; Byte.x02; Byte.x03; Byte.x04; Byte.x06];
     x509.DNSNames := dnsNames;
     x509.ExtKeyUsage_ :=
       [x509.ExtKeyUsageClientAuth; x509.ExtKeyUsageServerAuth];
     x509.KeyUsage := x509.KeyUsageDigitalSignature;
     x509.IsCA := false;
     x509.BasicConstraintsValid := false |}.

(** [(ca *FakeCA) NewCert(dnsNames)]: returns [(certPEM, privKeyPEM, err)]. *)
Definition NewCert (ca : FakeCA) (dnsNames : list string)
  : M W (bytes * bytes * option error) :=
  emit (EvNewCert dnsNames) ;;;
  t1 ←← quiet time_Now ;;
  t2 ←← quiet time_Now ;;
  let cert :=
    leafTemplate (time_AddDate t1 0 0 (-7)) (time_AddDate t2 10 0 0) dnsNames in
  r ←← call (EvGenerateKey 4096) (rsa_GenerateKey 4096) ;;
  match r with
  | inr err => ret ([], [], Some err)
  | inl certPrivKey =>
      r ←← call (EvCreateCertificate cert (Cert ca))
             (x509_CreateCertificate cert (Cert ca)
                (rsa.PublicKey_ certPrivKey) (PrivKey ca)) ;;
      match r with
      | inr err => ret ([], [], Some err)
      | inl certBytes =>
          let '(keyBuf, _) :=
            pem_Encode (pem.mkBlock "RSA PRIVATE KEY" []
                          (x509_MarshalPKCS1PrivateKey certPrivKey)) in
          let '(certBuf, err) :=
            pem_Encode (pem.mkBlock "CERTIFICATE" [] certBytes) in
          match err with
          | Some e => ret ([], [], Some e)
          | None => ret (certBuf, keyBuf, None)
          end
      end
  end.

(** The certificate that [NewCA] fills in, used both as template and as
    parent. *)
Definition rootTemplate (notBefore notAfter : Time) : x509.Certificate :=
  {| x509.SerialNumber := 2019;
     x509.Subject := newName;
     x509.IPAddresses := [];
     x509.NotBefore := notBefore;
     x509.NotAfter := notAfter;
     x509.SubjectKeyId := [];
     x509.DNSNames := [];
     x509.ExtKeyUsage_ :=
       [x509.ExtKeyUsageClientAuth; x509.ExtKeyUsageServerAuth];
     x509.KeyUsage :=
       Z.lor x509.KeyUsageDigitalSignature x509.KeyUsageCertSign;
     x509.IsCA := true;
     x509.BasicConstraintsValid := true |}.

(** [NewCA]: returns [(ca, err)]. The errors of the two [pem.Encode] calls
    are not looked at. *)
Definition NewCA : M W (option FakeCA * option error) :=
  t1 ←← quiet time_Now ;;
  t2 ←← quiet time_Now ;;
  let caCert :=
    rootTemplate (time_AddDate t1 0 0 (-30)) (time_AddDate t2 10 0 0) in
  r ←← call (EvGenerateKey 4096) (rsa_GenerateKey 4096) ;;
  match r with
  | inr err => ret (None, Some err)
  | inl caPrivKey =>
      r ←← call (EvCreateCertificate caCert caCert)
             (x509_CreateCertificate caCert caCert
                (rsa.PublicKey_ caPrivKey) caPrivKey) ;;
      match r with
      | inr err => ret (None, Some err)
      | inl caBytes =>
          let '(caPEM, _) :=
            pem_Encode (pem.mkBlock "CERTIFICATE" [] caBytes) in
          let '(caPrivKeyPEM, _) :=
            pem_Encode (pem.mkBlock "RSA PRIVATE KEY" []
                          (x509_MarshalPKCS1PrivateKey caPrivKey)) in
          ret (Some (mkFakeCA caPrivKey caCert caPrivKeyPEM caPEM), None)
      end
  end.
End fakeca.
End fakeca.

(** ** Package httpsproxy *)

Module httpsproxy.
Include httpsproxy_data.
Section httpsproxy.
Context {W : Type} `{GoLib W}.

Definition New (cert : tls.Certificate) (targetHost nextHost : string)
    (prefixes : list string) : Proxy * option error :=
  let cfg :=
    {| tls.MinVersion := tls.VersionTLS12;
       tls.CurvePreferences := [tls.CurveP521; tls.CurveP384; tls.CurveP256];
       tls.PreferServerCipherSuites := true;
       tls.CipherSuites :=
         [tls.TLS_ECDHE_RSA_WITH_AES_256_GCM_SHA384;
          tls.TLS_ECDHE_RSA_WITH_AES_256_CBC_SHA;
          tls.TLS_RSA_WITH_AES_256_GCM_SHA384;
          tls.TLS_RSA_WITH_AES_256_CBC_SHA];
       tls.Certificates := [cert] |} in
  (mkProxy cfg None targetHost None nextHost prefixes, None).

(** [makeDirector]: run [director], then set [r.Host]. *)
Definition makeDirector (director : http.Request → http.Request)
    (host : string) : http.Request → http.Request :=
  fun r => http.setHost (director r) host.

(** [httputil.NewSingleHostReverseProxy(target)], with its default
    director. *)
Definition NewSingleHostReverseProxy (target : url.URL)
  : httputil.ReverseProxy :=
  httputil.mkReverseProxy (httputil_defaultDirector target).

(** [(hp *Proxy) StartServer()]: returns the proxy as [StartServer] leaves
    it together with [(addr, err)]. The goroutine [go srv.ServeTLS(...)]
    is the event [EvServeTLS]. *)
Definition StartServer (hp : Proxy) : M W (Proxy * (string * option error)) :=
  r ←← call (EvListen "tcp" ":0") (net_Listen "tcp" ":0") ;;
  match r with
  | inr err => ret (hp, ("", Some err))
  | inl listener =>
      match url_Parse ("http://" +:+ targetHost hp) with
      | inr err => ret (hp, ("", Some err))
      | inl targetURL =>
          match url_Parse ("https://" +:+ nextHost hp) with
          | inr err => ret (hp, ("", Some err))
          | inl nextURL =>
              let proxy := NewSingleHostReverseProxy targetURL in
              let proxy :=
                httputil.mkReverseProxy
                  (makeDirector (httputil.Director proxy) (url.Host nextURL)) in
              let nextProxy := NewSingleHostReverseProxy nextURL in
              let nextProxy :=
                httputil.mkReverseProxy
                  (makeDirector (httputil.Director nextProxy)
                     (url.Host nextURL)) in
              let hp :=
                mkProxy (cfg hp) (Some proxy) (targetHost hp) (Some nextProxy)
                  (nextHost hp) (prefixes hp) in
              let port := net.Port listener in
              let addr := "localhost:" +:+ pretty port in
              emit (EvServeTLS addr hp) ;;;
              ret (hp, (addr, None))
          end
      end
  end.

(** Which of the two reverse proxies a request was handed to. *)
Inductive Route := ViaNext | ViaTarget.

(** [ReverseProxy.ServeHTTP] up to the point where the request leaves: the
    outbound request is the inbound one after the director has run. A nil
    handler panics. *)
Definition serveVia (route : Route) (h : option httputil.ReverseProxy)
    (req : http.Request) : outcome (Route * http.Request) :=
  match h with
  | None => Panics "invalid memory address or nil pointer dereference"
  | Some rp => Returns (route, httputil.Director rp req)
  end.

(** The [for _, prefix := range hp.prefixes] loop of [ServeHTTP] and the
    statement after it. *)
Fixpoint ServeHTTP_range (hp : Proxy) (ps : list string) (req : http.Request)
  : outcome (Route * http.Request) :=
  match ps with
  | [] => serveVia ViaTarget (target hp) req
  | prefix :: ps' =>
      if HasPrefix (url.Path (http.URL req)) prefix
      then serveVia ViaNext (next hp) req
      else ServeHTTP_range hp ps' req
  end.

Definition ServeHTTP (hp : Proxy) (req : http.Request)
  : outcome (Route * http.Request) :=
  ServeHTTP_range hp (prefixes hp) req.

End httpsproxy.
End httpsproxy.

(** ** Package connectproxy *)

Module connectproxy.
Section connectproxy.
Context {W : Type} `{GoLib W}.

Record domainInfo := mkDomainInfo {
  proxyHost : string;
  certPEM : bytes;
  privKeyPEM : bytes;
  httpsProxy : httpsproxy.Proxy
}.

(** The [Proxy] struct. The channel [done] is written to by the event
    [EvDone]; [proxyMutex] is modelled in [Concurrent] below. *)
Record Proxy := mkProxy {
  FakeCA : fakeca.FakeCA;
  redirectAddr : string;
  LocalMap : gmap string string;
  RemoteMap : gmap string string;
  PrefixMap : gmap string (list string);
  ProxyMap : gmap string domainInfo
}.

Definition hostKey (host : string) : string :=
  ReplaceAll (TrimPrefix host "http://") "127.0.0.1" "localhost".

(** The body of the loop over [hostPairs] in [New]. *)
Definition addHostPair (p : Proxy) (v : string) : Proxy :=
  match Split v "," with
  | [part0; part1] =>
      let localHost := hostKey part1 in
      mkProxy (FakeCA p) (redirectAddr p)
        (<[localHost := part0]> (LocalMap p))
        (<[part0 := localHost]> (RemoteMap p))
        (PrefixMap p) (ProxyMap p)
  | _ => p
  end.

(** The body of the loop over [prefixPairs] in [New]; a missing key reads
    as the nil slice. *)
Definition addPrefixPair (p : Proxy) (v : string) : Proxy :=
  match Split v "," with
  | [part0; part1] =>
      mkProxy (FakeCA p) (redirectAddr p) (LocalMap p) (RemoteMap p)
        (<[part0 := (default [] (PrefixMap p !! part0) ++ [part1])%list]>
           (PrefixMap p))
        (ProxyMap p)
  | _ => p
  end.

Definition New (fakeCA : fakeca.FakeCA) (hostPairs prefixPairs : list string)
  : Proxy :=
  let p := mkProxy fakeCA "" ∅ ∅ ∅ ∅ in
  let p := foldl addHostPair p hostPairs in
  let p := foldl addPrefixPair p prefixPairs in
  p.

(** What the handler has done with the response writer: [Redirect url code]
    is the call [http.Redirect(w, req, url, code)], [Error msg code] the
    call [http.Error(w, msg, code)], [Tunnelled target] the answer 200
    followed by the tunnel to the connection dialled at [target];
    [NoResponse]: nothing was written. *)
Inductive Response :=
  | Redirect (location : string) (code : Z)
  | Error (msg : string) (code : Z)
  | Tunnelled (target : string)
  | NoResponse.

(** [fmt.Sprintf("%-8s", s)]: pad on the right to width 8 (a method is an
    ASCII token, so bytes and runes count alike). *)
Fixpoint spaces (n : nat) : string :=
  match n with
  | O => EmptyString
  | S n' => " " +:+ spaces n'
  end.

Definition pad8 (s : string) : string :=
  s +:+ spaces (8 - String.length s).

Definition setProxyMap (p : Proxy) (m : gmap string domainInfo) : Proxy :=
  mkProxy (FakeCA p) (redirectAddr p) (LocalMap p) (RemoteMap p)
    (PrefixMap p) m.

(** The URL that [redirectToHTTPS] redirects to: a copy of [req.URL] with
    the host replaced and the scheme ["http"] changed to ["https"]. *)
Definition redirectURL (u : url.URL) (remoteHost : string) : url.URL :=
  let u := url.mkURL (url.Scheme u) remoteHost (url.Path u) (url.RawQuery u)
             (url.Fragment u) in
  if bool_decide (url.Scheme u = "http")
  then url.mkURL "https" (url.Host u) (url.Path u) (url.RawQuery u)
         (url.Fragment u)
  else u.

Definition redirectToHTTPS (p : Proxy) (req : http.Request) : Response :=
  match LocalMap p !! hostKey (http.Host req) with
  | Some remoteHost =>
      let u := redirectURL (http.URL req) remoteHost in
      Redirect (url_String u) 307
  | None =>
      Error (pad8 (http.Method req) +:+ " ERROR    " +:+ http.Host req +:+ " "
               +:+ url_String (http.URL req))
        http.StatusMethodNotAllowed
  end.

(** The part of [maybeStartHTTPSProxy] that runs with the exclusive lock
    held once the second lookup has missed. *)
Definition createProxy (p : Proxy) (req : http.Request) (localHost : string)
  : M W (Proxy * (string * option error)) :=
  let host := url_Hostname (http.URL req) in
  r ←← fakeca.NewCert (FakeCA p) [host] ;;
  let '(certPEM, privKeyPEM, err) := r in
  match err with
  | Some e => ret (p, ("", Some e))
  | None =>
      match tls_X509KeyPair certPEM privKeyPEM with
      | inr e => ret (p, ("", Some e))
      | inl serverCert =>
          let '(httpsProxy, err) :=
            httpsproxy.New serverCert localHost (http.Host req)
              (default [] (PrefixMap p !! http.Host req)) in
          match err with
          | Some e => ret (p, ("", Some e))
          | None =>
              r ←← httpsproxy.StartServer httpsProxy ;;
              let '(httpsProxy, (addr, err)) := r in
              match err with
              | Some e => ret (p, ("", Some e))
              | None =>
                  ret (setProxyMap p
                         (<[localHost :=
                              mkDomainInfo addr certPEM privKeyPEM httpsProxy]>
                            (ProxyMap p)),
                       (addr, None))
              end
          end
      end
  end.

(** [maybeStartHTTPSProxy] as one goroutine runs it when no other goroutine
    interferes: the first lookup is the one under the read lock, the second
    the one under the exclusive lock. *)
Definition maybeStartHTTPSProxy (p : Proxy) (req : http.Request)
  : M W (Proxy * (string * option error)) :=
  match RemoteMap p !! http.Host req with
  | None => ret (p, ("", None))
  | Some localHost =>
      match ProxyMap p !! localHost with
      | Some proxyInfo => ret (p, (proxyHost proxyInfo, None))
      | None =>
          match ProxyMap p !! localHost with
          | Some proxyInfo => ret (p, (proxyHost proxyInfo, None))
          | None => createProxy p req localHost
          end
      end
  end.

(** The response writer: whether it implements [http.Hijacker]. *)
Record ResponseWriter := mkResponseWriter { Hijacker : bool }.

Definition handleConnect (p : Proxy) (w : ResponseWriter) (req : http.Request)
  : M W (Proxy * outcome Response) :=
  let remoteHost := http.Host req in
  r ←← maybeStartHTTPSProxy p req ;;
  let '(p, (proxyHost, err)) := r in
  match err with
  | Some e => ret (p, Returns (Error e http.StatusServiceUnavailable))
  | None =>
      let remoteHost :=
        if bool_decide (proxyHost ≠ "") then proxyHost else remoteHost in
      r ←← call (EvDial "tcp" remoteHost) (net_Dial "tcp" remoteHost) ;;
      match r with
      | inr e => ret (p, Returns (Error e http.StatusServiceUnavailable))
      | inl targetConn =>
          emit (EvWriteHeader http.StatusOK) ;;;
          if negb (Hijacker w)
          then ret (p, Fatal "HTTP server doesn't support hijacking connection")
          else
            r ←← call EvHijack http_Hijack ;;
            match r with
            | inr _ => ret (p, Fatal "HTTP hijacking failed")
            | inl clientConn =>
                emit (EvTunnel targetConn clientConn) ;;;
                emit (EvTunnel clientConn targetConn) ;;;
                ret (p, Returns (Tunnelled remoteHost))
            end
      end
  end.

Definition ServeHTTP (p : Proxy) (w : ResponseWriter) (req : http.Request)
  : M W (Proxy * outcome Response) :=
  if bool_decide (url.Path (http.URL req) = "/quitquitquit")
  then emit EvDone ;;; ret (p, Returns NoResponse)
  else if bool_decide (http.Method req ≠ http.MethodConnect)
  then ret (p, Returns (redirectToHTTPS p req))
  else handleConnect p w req.

(** *** Goroutines running [maybeStartHTTPSProxy] side by side

    [sync.RWMutex]: the number of goroutines holding the read lock, and
    whether the exclusive lock is held. [RLock] waits while the exclusive
    lock is held, [Lock] while any lock is held. (Go also holds new
    readers back while a writer waits; that only removes interleavings.) *)
Record RWMutex := mkRWMutex { readers : nat; writer : bool }.

(** The statement of [maybeStartHTTPSProxy] a goroutine is about to run,
    with the local variables that are live there. *)
Inductive pc :=
  | AtEntry
  | AtRLock (localHost : string)
  | AtRead (localHost : string)
  | AtRUnlock (localHost : string) (proxyInfo : option domainInfo)
  | AtLock (localHost : string)
  | AtRecheck (localHost : string)
  | AtNewCert (localHost : string)
  | AtKeyPair (localHost : string) (certPEM privKeyPEM : bytes)
  | AtNew (localHost : string) (certPEM privKeyPEM : bytes)
      (serverCert : tls.Certificate)
  | AtStartServer (localHost : string) (certPEM privKeyPEM : bytes)
      (httpsProxy : httpsproxy.Proxy)
  | AtInsert (localHost : string) (addr : string) (certPEM privKeyPEM : bytes)
      (httpsProxy : httpsproxy.Proxy)
  | AtUnlock (result : string * option error)
  | Done (result : string * option error).

(** What the goroutines share: the [Proxy] (of which only [ProxyMap]
    changes), its [proxyMutex], and the world. *)
Record shared := mkShared {
  proxy : Proxy;
  mutex : RWMutex;
  st : state W
}.

(** One statement of one goroutine. [None]: the goroutine is blocked on the
    mutex, or has returned. *)
Definition advance (sh : shared) (req : http.Request) (at_ : pc)
  : option (shared * pc) :=
  let p := proxy sh in
  let mu := mutex sh in
  match at_ with
  | AtEntry =>
      match RemoteMap p !! http.Host req with
      | None => Some (sh, Done ("", None))
      | Some localHost => Some (sh, AtRLock localHost)
      end
  | AtRLock localHost =>
      if writer mu then None
      else Some (mkShared p (mkRWMutex (S (readers mu)) (writer mu)) (st sh),
                 AtRead localHost)
  | AtRead localHost =>
      Some (sh, AtRUnlock localHost (ProxyMap p !! localHost))
  | AtRUnlock localHost proxyInfo =>
      let sh' :=
        mkShared p (mkRWMutex (readers mu - 1) (writer mu)) (st sh) in
      match proxyInfo with
      | Some info => Some (sh', Done (proxyHost info, None))
      | None => Some (sh', AtLock localHost)
      end
  | AtLock localHost =>
      if writer mu then None
      else match readers mu with
           | S _ => None
           | O => Some (mkShared p (mkRWMutex 0 true) (st sh),
                        AtRecheck localHost)
           end
  | AtRecheck localHost =>
      match ProxyMap p !! localHost with
      | Some info => Some (sh, AtUnlock (proxyHost info, None))
      | None => Some (sh, AtNewCert localHost)
      end
  | AtNewCert localHost =>
      let host := url_Hostname (http.URL req) in
      let '((certPEM, privKeyPEM, err), s') :=
        fakeca.NewCert (FakeCA p) [host] (st sh) in
      let sh' := mkShared p mu s' in
      match err with
      | Some e => Some (sh', AtUnlock ("", Some e))
      | None => Some (sh', AtKeyPair localHost certPEM privKeyPEM)
      end
  | AtKeyPair localHost certPEM privKeyPEM =>
      match tls_X509KeyPair certPEM privKeyPEM with
      | inr e => Some (sh, AtUnlock ("", Some e))
      | inl serverCert => Some (sh, AtNew localHost certPEM privKeyPEM serverCert)
      end
  | AtNew localHost certPEM privKeyPEM serverCert =>
      let '(httpsProxy, err) :=
        httpsproxy.New serverCert localHost (http.Host req)
          (default [] (PrefixMap p !! http.Host req)) in
      match err with
      | Some e => Some (sh, AtUnlock ("", Some e))
      | None => Some (sh, AtStartServer localHost certPEM privKeyPEM httpsProxy)
      end
  | AtStartServer localHost certPEM privKeyPEM httpsProxy =>
      let '((httpsProxy, (addr, err)), s') :=
        httpsproxy.StartServer httpsProxy (st sh) in
      let sh' := mkShared p mu s' in
      match err with
      | Some e => Some (sh', AtUnlock ("", Some e))
      | None => Some (sh', AtInsert localHost addr certPEM privKeyPEM httpsProxy)
      end
  | AtInsert localHost addr certPEM privKeyPEM httpsProxy =>
      let p' :=
        setProxyMap p
          (<[localHost := mkDomainInfo addr certPEM privKeyPEM httpsProxy]>
             (ProxyMap p)) in
      Some (mkShared p' mu (st sh), AtUnlock (addr, None))
  | AtUnlock result =>
      Some (mkShared p (mkRWMutex (readers mu) false) (st sh), Done result)
  | Done _ => None
  end.

(** A goroutine serving one request. *)
Record goroutine := mkGoroutine { req : http.Request; at_ : pc }.

Record machine := mkMachine { sh : shared; threads : list goroutine }.

(** Goroutine [i] runs its next statement. *)
Definition stepG (m : machine) (i : nat) : option machine :=
  match threads m !! i with
  | None => None
  | Some g =>
      match advance (sh m) (req g) (at_ g) with
      | None => None
      | Some (sh', at') =>
          Some (mkMachine sh' (<[i := mkGoroutine (req g) at']> (threads m)))
      end
  end.

(** The world may change between any two statements: the rest of the
    program (dialling, tunnelling) and the outside act on it. *)
Definition setWorld (m : machine) (w : W) : machine :=
  mkMachine
    (mkShared (proxy (sh m)) (mutex (sh m)) (mkState w (trace (st (sh m)))))
    (threads m).

Inductive step : machine → machine → Prop :=
  | step_goroutine m i m' : stepG m i = Some m' → step m m'
  | step_world m w : step m (setWorld m w).

(** The dispatcher as [New] returns it, with one goroutine at the entry of
    [maybeStartHTTPSProxy] for each request it will ever serve: a request
    that arrives later is a goroutine that has not moved yet. *)
Definition initial (p : Proxy) (w : W) (reqs : list http.Request) : machine :=
  mkMachine (mkShared p (mkRWMutex 0 false) (mkState w []))
    (map (fun r => mkGoroutine r AtEntry) reqs).

(** Run the goroutines in the order given by a schedule; a goroutine that
    cannot move is passed over. *)
Fixpoint run (schedule : list nat) (m : machine) : machine :=
  match schedule with
  | [] => m
  | i :: schedule' =>
      match stepG m i with
      | Some m' => run schedule' m'
      | None => run schedule' m
      end
  end.

(** The servers the program has launched, by the local host they stand in
    for (the [targetHost] of the handler) and their address. *)
Definition started (tr : list Event) : list (string * string) :=
  omap (fun e => match e with
                 | EvServeTLS addr handler =>
                     Some (httpsproxy.targetHost handler, addr)
                 | _ => None
                 end) tr.

Definition startedFor (localHost : string) (tr : list Event) : list string :=
  (filter (fun ka => ka.1 = localHost) (started tr)).*2.

End connectproxy.
End connectproxy.

(** ** Vocabulary of the statements

    The predicates and measures in which the properties below are
    stated. *)

Module props.
Import connectproxy.

(** An entry is well formed when it splits into exactly two fields. *)
Definition wellFormed (v : string) : Prop := length (Split v ",") = 2.

#[export] Instance wellFormed_dec v : Decision (wellFormed v).
Proof. unfold wellFormed. apply _. Defined.

(** The (remote, normalized local) pair that a [host_pair] entry stands
    for. *)
Definition hostPairOf (v : string) : option (string * string) :=
  match Split v "," with
  | [part0; part1] => Some (part0, hostKey part1)
  | _ => None
  end.

Definition hostPairsOf (hostPairs : list string) : list (string * string) :=
  omap hostPairOf hostPairs.

(** The certificates a trace shows to have been signed, each with the
    parent it was signed under. *)
Definition issued (tr : list Event)
  : list (x509.Certificate * x509.Certificate) :=
  omap (fun e => match e with
                 | EvCreateCertificate template parent => Some (template, parent)
                 | _ => None
                 end) tr.

(** Events of the tunnel set-up after the dial. *)
Definition tunnelEvent (e : Event) : Prop :=
  match e with
  | EvWriteHeader _ | EvHijack | EvTunnel _ _ => True
  | _ => False
  end.

(** Statements run with the exclusive lock held, and with a read lock
    held. *)
Definition inCS (a : pc) : bool :=
  match a with
  | AtRecheck _ | AtNewCert _ | AtKeyPair _ _ _ | AtNew _ _ _ _
  | AtStartServer _ _ _ _ | AtInsert _ _ _ _ _ | AtUnlock _ => true
  | _ => false
  end.

Definition inRS (a : pc) : bool :=
  match a with
  | AtRead _ | AtRUnlock _ _ => true
  | _ => false
  end.

Definition b2n (b : bool) : nat := if b then 1 else 0.

Definition isInsert (a : pc) : bool :=
  match a with AtInsert _ _ _ _ _ => true | _ => false end.

Definition isDone (a : pc) : bool :=
  match a with Done _ => true | _ => false end.

(** The number of commas in a string. *)
Fixpoint commas (s : string) : nat :=
  match s with
  | EmptyString => 0
  | String c s' =>
      (if bool_decide (String c EmptyString = ",") then 1 else 0) + commas s'
  end.

(** The (remote host, path prefix) pair that a [prefix_pair] entry stands
    for. *)
Definition prefixPairOf (v : string) : option (string * string) :=
  match Split v "," with
  | [part0; part1] => Some (part0, part1)
  | _ => None
  end.

Definition prefixPairsOf (prefixPairs : list string) : list (string * string) :=
  omap prefixPairOf prefixPairs.

(** While the exclusive lock is held no read lock is. *)
Definition exclusive (mu : RWMutex) : Prop :=
  writer mu = true → readers mu = 0.

(** The statements a goroutine has still to run, at most. *)
Definition remaining (a : pc) : nat :=
  match a with
  | AtEntry => 12
  | AtRLock _ => 11
  | AtRead _ => 10
  | AtRUnlock _ _ => 9
  | AtLock _ => 8
  | AtRecheck _ => 7
  | AtNewCert _ => 6
  | AtKeyPair _ _ _ => 5
  | AtNew _ _ _ _ => 4
  | AtStartServer _ _ _ _ => 3
  | AtInsert _ _ _ _ _ => 2
  | AtUnlock _ => 1
  | Done _ => 0
  end.

Definition fuel (ths : list goroutine) : nat :=
  sum_list_with (fun g => remaining (at_ g)) ths.

Section props.
Context {W : Type} `{GoLib W}.

(** The ways in which the creation of a domain proxy fails with error [e],
    one for each call of [maybeStartHTTPSProxy] that returns an error. *)
Inductive creationFails (p : Proxy) (req : http.Request) (localHost : string)
    (s : state W) (e : error) : Prop :=
  | NewCert_fails certPEM privKeyPEM s1 :
      fakeca.NewCert (FakeCA p) [url_Hostname (http.URL req)] s
      = ((certPEM, privKeyPEM, Some e), s1) →
      creationFails p req localHost s e
  | X509KeyPair_fails certPEM privKeyPEM s1 :
      fakeca.NewCert (FakeCA p) [url_Hostname (http.URL req)] s
      = ((certPEM, privKeyPEM, None), s1) →
      tls_X509KeyPair certPEM privKeyPEM = inr e →
      creationFails p req localHost s e
  | New_fails certPEM privKeyPEM s1 serverCert hp :
      fakeca.NewCert (FakeCA p) [url_Hostname (http.URL req)] s
      = ((certPEM, privKeyPEM, None), s1) →
      tls_X509KeyPair certPEM privKeyPEM = inl serverCert →
      httpsproxy.New serverCert localHost (http.Host req)
        (default [] (PrefixMap p !! http.Host req)) = (hp, Some e) →
      creationFails p req localHost s e
  | StartServer_fails certPEM privKeyPEM s1 serverCert hp hp' addr s2 :
      fakeca.NewCert (FakeCA p) [url_Hostname (http.URL req)] s
      = ((certPEM, privKeyPEM, None), s1) →
      tls_X509KeyPair certPEM privKeyPEM = inl serverCert →
      httpsproxy.New serverCert localHost (http.Host req)
        (default [] (PrefixMap p !! http.Host req)) = (hp, None) →
      httpsproxy.StartServer hp s1 = ((hp', (addr, Some e)), s2) →
      creationFails p req localHost s e.

(** How many goroutines are at a statement of a given kind. *)
Definition count (P : pc → bool) (ths : list goroutine) : nat :=
  sum_list_with (fun g => b2n (P (at_ g))) ths.

(** What holds of a goroutine at each statement, given the dispatcher and
    the trace: its key is the one [RemoteMap] gives for its request; a
    record it has read is in [ProxyMap]; past the second lookup no record
    and no server exist for its key, until it has launched one; an address
    it returns is that of the record. *)
Definition goroutine_ok (p : Proxy) (tr : list Event) (g : goroutine) : Prop :=
  let key := RemoteMap p !! http.Host (req g) in
  match at_ g with
  | AtEntry => True
  | AtRLock k | AtRead k | AtLock k | AtRecheck k => key = Some k
  | AtRUnlock k found =>
      key = Some k ∧ ∀ di, found = Some di → ProxyMap p !! k = Some di
  | AtNewCert k | AtKeyPair k _ _ | AtNew k _ _ _ =>
      key = Some k ∧ ProxyMap p !! k = None ∧ startedFor k tr = []
  | AtStartServer k _ _ hp =>
      key = Some k ∧ ProxyMap p !! k = None ∧ startedFor k tr = []
      ∧ httpsproxy.targetHost hp = k
  | AtInsert k addr _ _ hp =>
      key = Some k ∧ ProxyMap p !! k = None ∧ startedFor k tr = [addr]
  | AtUnlock result | Done result =>
      result.2 = None → ∀ k, key = Some k →
      ∃ di, ProxyMap p !! k = Some di ∧ proxyHost di = result.1
  end.

(** The invariant of the machine started from dispatcher [p0]. *)
Record Inv (p0 : Proxy) (m : @machine W) : Prop := mkInv {
  inv_static : ∃ pm, proxy (sh m) = setProxyMap p0 pm;
  inv_readers : readers (mutex (sh m)) = count inRS (threads m);
  inv_writer : b2n (writer (mutex (sh m))) = count inCS (threads m);
  inv_goroutines : ∀ i g, threads m !! i = Some g →
    goroutine_ok (proxy (sh m)) (trace (st (sh m))) g;
  inv_map : ∀ k,
    match ProxyMap (proxy (sh m)) !! k with
    | Some di => startedFor k (trace (st (sh m))) = [proxyHost di]
    | None =>
        startedFor k (trace (st (sh m))) = []
        ∨ ∃ i g addr c1 c2 hp,
            threads m !! i = Some g ∧ at_ g = AtInsert k addr c1 c2 hp
    end
}.


(** Run a schedule to its end, if each goroutine it names can move when
    its turn comes. *)
Fixpoint runs (schedule : list nat) (m : @machine W) : option (@machine W) :=
  match schedule with
  | [] => Some m
  | i :: schedule' =>
      match stepG m i with
      | Some m' => runs schedule' m'
      | None => None
      end
  end.

End props.
End props.

(** ** An executable instance of the library interface

    It stands in for the Go standard library when the model is run on
    concrete inputs. Its world counts the calls made so far and says how
    many listeners can still be bound and whether the random source
    works, so that the failure paths can be run too. *)

Module sample.

Record World := mkWorld {
  ticks : Z;
  portsLeft : nat;
  entropy : bool
}.

Definition tick (w : World) : World :=
  mkWorld (ticks w + 1) (portsLeft w) (entropy w).

(** [keyPEM] and [certPEM] files are told apart by their first byte. *)
Definition Decode (data : bytes) : option pem.Block * bytes :=
  match data with
  | Byte.x4b :: rest => (Some (pem.mkBlock "RSA PRIVATE KEY" [] rest), [])
  | Byte.x43 :: rest => (Some (pem.mkBlock "CERTIFICATE" [] rest), [])
  | _ => (None, data)
  end.

Definition Encode (b : pem.Block) : bytes * option error :=
  if bool_decide (pem.Type_ b = "CERTIFICATE")
  then (Byte.x43 :: pem.Bytes b, None)
  else (Byte.x4b :: pem.Bytes b, None).

Definition key (n : Z) : rsa.PrivateKey :=
  rsa.mkPrivateKey (rsa.mkPublicKey n 65537) n [].

Definition ParsePKCS1PrivateKey (der : bytes)
  : option rsa.PrivateKey * option error :=
  match der with
  | [] => (None, Some "asn1: syntax error: sequence truncated")
  | _ => (Some (key (Z.of_nat (length der))), None)
  end.

Definition rootCert : x509.Certificate :=
  {| x509.SerialNumber := 2019;
     x509.Subject := fakeca.newName;
     x509.IPAddresses := [];
     x509.NotBefore := 0%Z;
     x509.NotAfter := 0%Z;
     x509.SubjectKeyId := [];
     x509.DNSNames := [];
     x509.ExtKeyUsage_ :=
       [x509.ExtKeyUsageClientAuth; x509.ExtKeyUsageServerAuth];
     x509.KeyUsage :=
       Z.lor x509.KeyUsageDigitalSignature x509.KeyUsageCertSign;
     x509.IsCA := true;
     x509.BasicConstraintsValid := true |}.

Definition ParseCertificate (der : bytes) : x509.Certificate + error :=
  match der with
  | [] => inr "x509: malformed certificate"
  | _ => inl rootCert
  end.

Definition GenerateKey (bits : Z) (w : World)
  : (rsa.PrivateKey + error) * World :=
  if entropy w then (inl (key (ticks w)), tick w)
  else (inr "rand: no entropy", tick w).

Definition CreateCertificate (template parent : x509.Certificate)
    (pub : rsa.PublicKey) (priv : rsa.PrivateKey) (w : World)
  : (bytes + error) * World :=
  (inl [Byte.x30; Byte.x82], tick w).

Definition X509KeyPair (certPEMBlock keyPEMBlock : bytes)
  : tls.Certificate + error :=
  match certPEMBlock with
  | [] => inr "tls: failed to find any PEM data in certificate input"
  | _ => inl (tls.mkCertificate [certPEMBlock] None)
  end.

(** [url.Parse] on the two shapes [StartServer] builds. *)
Definition Parse (rawURL : string) : url.URL + error :=
  if HasPrefix rawURL "https://"
  then inl (url.mkURL "https" (dropn 8 rawURL) "" "" "")
  else if HasPrefix rawURL "http://"
  then inl (url.mkURL "http" (dropn 7 rawURL) "" "" "")
  else inr "parse: missing protocol scheme".

(** [URL.String] without escaping. *)
Definition String_ (u : url.URL) : string :=
  (if bool_decide (url.Scheme u = "") then "" else url.Scheme u +:+ ":")
  +:+ (if bool_decide (url.Scheme u = "" ∧ url.Host u = "") then ""
       else "//" +:+ url.Host u)
  +:+ url.Path u
  +:+ (if bool_decide (url.RawQuery u = "") then ""
       else "?" +:+ url.RawQuery u)
  +:+ (if bool_decide (url.Fragment u = "") then ""
       else "#" +:+ url.Fragment u).

(** The host up to the first colon. *)
Fixpoint Hostname_ (host : string) : string :=
  match host with
  | EmptyString => EmptyString
  | String c host' =>
      if bool_decide (String c EmptyString = ":") then EmptyString
      else String c (Hostname_ host')
  end.

Definition Listen (network address : string) (w : World)
  : (net.Listener + error) * World :=
  match portsLeft w with
  | O => (inr "listen tcp :0: bind: address already in use", tick w)
  | S n =>
      (inl (net.mkListener (40000 + ticks w)),
       mkWorld (ticks w + 1) n (entropy w))
  end.

Definition Dial (network address : string) (w : World)
  : (net.Conn + error) * World :=
  (inl (net.mkConn address), tick w).

Definition Hijack (w : World) : (net.Conn + error) * World :=
  (inl (net.mkConn "client"), tick w).

(** The default director points the request URL at the target. *)
Definition defaultDirector (target : url.URL) (r : http.Request)
  : http.Request :=
  http.mkRequest (http.Method r)
    (url.mkURL (url.Scheme target) (url.Host target)
       (url.Path (http.URL r)) (url.RawQuery (http.URL r))
       (url.Fragment (http.URL r)))
    (http.Host r) (http.Header r).

#[global] Instance lib : GoLib World := {|
  pem_Decode := Decode;
  pem_Encode := Encode;
  x509_ParsePKCS1PrivateKey := ParsePKCS1PrivateKey;
  x509_ParseCertificate := ParseCertificate;
  x509_MarshalPKCS1PrivateKey := fun _ => [Byte.x30];
  x509_CreateCertificate := CreateCertificate;
  rsa_GenerateKey := GenerateKey;
  time_Now := fun w => (ticks w, tick w);
  time_AddDate := fun t y m d => (t + 31536000 * y + 2592000 * m + 86400 * d)%Z;
  tls_X509KeyPair := X509KeyPair;
  url_Parse := Parse;
  url_Hostname := fun u => Hostname_ (url.Host u);
  url_String := String_;
  net_Listen := Listen;
  net_Dial := Dial;
  http_Hijack := Hijack;
  httputil_defaultDirector := defaultDirector
|}.

Definition world0 : World := mkWorld 0 8 true.
Definition state0 : state World := mkState world0 [].

Definition ca : fakeca.FakeCA :=
  fakeca.mkFakeCA (key 7) rootCert [Byte.x4b; Byte.x30] [Byte.x43; Byte.x30].

(** [--host_pair=yoursite.com:443,127.0.0.1:7777
     --prefix_pair=yoursite.com:443,/api], as in the README. *)
Definition dispatcher : connectproxy.Proxy :=
  connectproxy.New ca ["yoursite.com:443,127.0.0.1:7777"]
    ["yoursite.com:443,/api"].

Definition connectReq (host : string) : http.Request :=
  http.mkRequest "CONNECT" (url.mkURL "" host "" "" "") host [].

Definition getReq (scheme host path : string) : http.Request :=
  http.mkRequest "GET" (url.mkURL scheme host path "" "") host [].

(** *** Sample data *)

(** Two well-formed entries whose local hosts normalize to the same key. *)
Definition clashing : list string :=
  ["a.com:443,localhost:7777"; "b.com:443,127.0.0.1:7777"].

(** A proxy for the README's host pair, started in the sample world. *)
Definition sampleProxy : httpsproxy.Proxy :=
  (httpsproxy.New (tls.mkCertificate [[Byte.x43]] None) "localhost:7777"
     "yoursite.com:443" ["/api"]).1.

Definition sampleStarted : httpsproxy.Proxy :=
  (httpsproxy.StartServer sampleProxy state0).1.1.

(** A world in which no listener can be bound any more. *)
Definition noPorts : state World :=
  mkState (mkWorld 0 0 true) [].

(** Two requests for the mapped host race through the first lookup; a
    third asks for a host that is not mapped. *)
Definition sampleRequests : list http.Request :=
  [connectReq "yoursite.com:443"; connectReq "yoursite.com:443";
   connectReq "example.org:443"].

Definition sampleSchedule : list nat :=
  [0; 1; 0; 1; 0; 1; 0; 1; 0; 1; 0; 0; 0; 0; 0; 0; 0; 1; 1; 1; 2]%nat.

Definition sampleRun : @connectproxy.machine World :=
  connectproxy.run sampleSchedule
    (connectproxy.initial dispatcher world0 sampleRequests).

End sample.

(** * Properties *)

(** Settle a decidable statement about concrete data by evaluation. *)
Ltac by_compute :=
  match goal with
  | |- ?P => apply (bool_decide_unpack P); vm_compute; exact I
  end.

(** ** Package strings *)

Section gostrings_facts.

(** [HasPrefix] is the literal prefix test. *)
Lemma HasPrefix_spec (s prefix : string) :
  HasPrefix s prefix = true ↔ ∃ rest, s = prefix +:+ rest.
Proof.
  revert s. induction prefix as [|c prefix IH]; intros s; simpl.
  - split; [intros _; by exists s | done].
  - destruct s as [|d s].
    + split; [done | intros [rest Hrest]; discriminate].
    + destruct (decide (c = d)) as [->|Hne].
      * rewrite IH. split; intros [rest Hrest]; exists rest.
        -- by rewrite Hrest.
        -- by injection Hrest.
      * split; [done | intros [rest Hrest]; by injection Hrest].
Qed.

Lemma HasPrefix_app (prefix rest : string) :
  HasPrefix (prefix +:+ rest) prefix = true.
Proof. apply HasPrefix_spec. by exists rest. Qed.

Lemma dropn_app (prefix rest : string) :
  dropn (String.length prefix) (prefix +:+ rest) = rest.
Proof. induction prefix; simpl; auto. Qed.

Lemma TrimPrefix_app (prefix rest : string) :
  TrimPrefix (prefix +:+ rest) prefix = rest.
Proof. unfold TrimPrefix. by rewrite HasPrefix_app, dropn_app. Qed.

Lemma TrimPrefix_miss (s prefix : string) :
  HasPrefix s prefix = false → TrimPrefix s prefix = s.
Proof. unfold TrimPrefix. by intros ->. Qed.

End gostrings_facts.

Example Split_two : Split "yoursite.com:443,127.0.0.1:7777" ","
                    = ["yoursite.com:443"; "127.0.0.1:7777"].
Proof. reflexivity. Qed.

Example Split_none : Split "yoursite.com:443" "," = ["yoursite.com:443"].
Proof. reflexivity. Qed.

Example Split_three : Split "a,b,c" "," = ["a"; "b"; "c"].
Proof. reflexivity. Qed.

Example Split_empty : Split "" "," = [""].
Proof. reflexivity. Qed.

Example ReplaceAll_twice :
  ReplaceAll "127.0.0.1:80,127.0.0.1:81" "127.0.0.1" "localhost"
  = "localhost:80,localhost:81".
Proof. reflexivity. Qed.

(** ** The tables built by [connectproxy.New] *)

Module New_facts.
Import connectproxy props.

Lemma addHostPair_malformed p v : ¬ wellFormed v → addHostPair p v = p.
Proof.
  unfold wellFormed, addHostPair. intros Hv.
  destruct (Split v ",") as [|a [|b [|c l]]]; simpl in *; try done.
Qed.

Lemma addPrefixPair_malformed p v : ¬ wellFormed v → addPrefixPair p v = p.
Proof.
  unfold wellFormed, addPrefixPair. intros Hv.
  destruct (Split v ",") as [|a [|b [|c l]]]; simpl in *; try done.
Qed.

Lemma foldl_skip {A} (f : A → string → A) (a : A) (l1 l2 : list string) v :
  (∀ a, f a v = a) → foldl f a (l1 ++ v :: l2) = foldl f a (l1 ++ l2).
Proof. intros Hf. rewrite !foldl_app. simpl. by rewrite Hf. Qed.

Lemma foldl_addHostPair_fields p l :
  let p' := foldl addHostPair p l in
  FakeCA p' = FakeCA p ∧ redirectAddr p' = redirectAddr p
  ∧ PrefixMap p' = PrefixMap p ∧ ProxyMap p' = ProxyMap p.
Proof.
  revert p. induction l as [|v l IH]; intros p; simpl; [done|].
  destruct (IH (addHostPair p v)) as (-> & -> & -> & ->).
  unfold addHostPair.
  by destruct (Split v ",") as [|a [|b [|c l']]].
Qed.

Lemma foldl_addPrefixPair_fields p l :
  let p' := foldl addPrefixPair p l in
  FakeCA p' = FakeCA p ∧ redirectAddr p' = redirectAddr p
  ∧ LocalMap p' = LocalMap p ∧ RemoteMap p' = RemoteMap p
  ∧ ProxyMap p' = ProxyMap p.
Proof.
  revert p. induction l as [|v l IH]; intros p; simpl; [done|].
  destruct (IH (addPrefixPair p v)) as (-> & -> & -> & -> & ->).
  unfold addPrefixPair.
  by destruct (Split v ",") as [|a [|b [|c l']]].
Qed.

(** The two host tables are folds over the pairs the entries stand for. *)
Lemma foldl_addHostPair_maps p l :
  LocalMap (foldl addHostPair p l)
  = foldl (fun m rl => <[rl.2 := rl.1]> m) (LocalMap p) (hostPairsOf l)
  ∧ RemoteMap (foldl addHostPair p l)
    = foldl (fun m rl => <[rl.1 := rl.2]> m) (RemoteMap p) (hostPairsOf l).
Proof.
  revert p. induction l as [|v l IH]; intros p; simpl; [done|].
  destruct (IH (addHostPair p v)) as [-> ->].
  unfold hostPairsOf. simpl. unfold addHostPair, hostPairOf.
  by destruct (Split v ",") as [|a [|b [|c l']]].
Qed.

Lemma New_LocalMap ca hostPairs prefixPairs :
  LocalMap (New ca hostPairs prefixPairs)
  = foldl (fun m rl => <[rl.2 := rl.1]> m) ∅ (hostPairsOf hostPairs).
Proof.
  unfold New.
  destruct (foldl_addPrefixPair_fields
              (foldl addHostPair (mkProxy ca "" ∅ ∅ ∅ ∅) hostPairs) prefixPairs)
    as (_ & _ & -> & _).
  by destruct (foldl_addHostPair_maps (mkProxy ca "" ∅ ∅ ∅ ∅) hostPairs)
    as [-> _].
Qed.

Lemma New_RemoteMap ca hostPairs prefixPairs :
  RemoteMap (New ca hostPairs prefixPairs)
  = foldl (fun m rl => <[rl.1 := rl.2]> m) ∅ (hostPairsOf hostPairs).
Proof.
  unfold New.
  destruct (foldl_addPrefixPair_fields
              (foldl addHostPair (mkProxy ca "" ∅ ∅ ∅ ∅) hostPairs) prefixPairs)
    as (_ & _ & _ & -> & _).
  by destruct (foldl_addHostPair_maps (mkProxy ca "" ∅ ∅ ∅ ∅) hostPairs)
    as [_ ->].
Qed.

Lemma New_ProxyMap ca hostPairs prefixPairs :
  ProxyMap (New ca hostPairs prefixPairs) = ∅.
Proof.
  unfold New.
  destruct (foldl_addPrefixPair_fields
              (foldl addHostPair (mkProxy ca "" ∅ ∅ ∅ ∅) hostPairs) prefixPairs)
    as (_ & _ & _ & _ & ->).
  by destruct (foldl_addHostPair_fields (mkProxy ca "" ∅ ∅ ∅ ∅) hostPairs)
    as (_ & _ & _ & ->).
Qed.

(** Inserting the pairs of a list without repeated keys, in any order,
    gives the map that holds exactly those pairs. *)
Lemma foldl_insert_lookup (l : list (string * string)) (k v : string) :
  NoDup l.*1 →
  foldl (fun m kv => <[kv.1 := kv.2]> m) (∅ : gmap string string) l !! k
  = Some v ↔ (k, v) ∈ l.
Proof.
  intros Hnd.
  assert (Hgen : ∀ (m : gmap string string),
    (∀ k', k' ∈ l.*1 → m !! k' = None) →
    foldl (fun m kv => <[kv.1 := kv.2]> m) m l !! k = Some v
    ↔ (k, v) ∈ l ∨ m !! k = Some v).
  { clear -Hnd. induction l as [|[k0 v0] l IH]; intros m Hm; simpl.
    - rewrite elem_of_nil. tauto.
    - apply NoDup_cons in Hnd as [Hk0 Hnd]. simpl in *.
      rewrite IH; [|done|].
      + rewrite elem_of_cons. destruct (decide (k = k0)) as [->|Hne].
        * rewrite lookup_insert_eq. split.
          -- intros [Hin|[=->]]; [|by left; left].
             exfalso. apply Hk0. apply list_elem_of_fmap. by exists (k0, v).
          -- intros [[[= ->]|Hin]|Hm']; [by right| |].
             ++ exfalso. apply Hk0. apply list_elem_of_fmap. by exists (k0, v).
             ++ rewrite Hm in Hm'; [done|]. simpl. left.
        * rewrite lookup_insert_ne by done.
          split; [tauto | intros [[[= ? ?]|?]|?]; [done | tauto | tauto]].
      + intros k' Hk'. rewrite lookup_insert_ne.
        * apply Hm. simpl. by right.
        * intros ->. done. }
  rewrite Hgen; [|intros; apply lookup_empty].
  rewrite lookup_empty. split; [intros [?|?]; done | tauto].
Qed.

End New_facts.

Module host_tables.
Import connectproxy props New_facts.

Lemma foldl_swap_insert (l : list (string * string)) (m : gmap string string) :
  foldl (fun m rl => <[rl.2 := rl.1]> m) m l
  = foldl (fun m kv => <[kv.1 := kv.2]> m) m (prod_swap <$> l).
Proof.
  revert m. induction l as [|[r k] l IH]; intros m; simpl; [done|].
  by rewrite IH.
Qed.

Lemma LocalMap_lookup ca hostPairs prefixPairs l r :
  NoDup (hostPairsOf hostPairs).*2 →
  LocalMap (New ca hostPairs prefixPairs) !! l = Some r
  ↔ (r, l) ∈ hostPairsOf hostPairs.
Proof.
  intros Hnd. rewrite New_LocalMap, foldl_swap_insert.
  rewrite foldl_insert_lookup.
  - rewrite list_elem_of_fmap. split.
    + intros [[r' l'] [[= -> ->] Hin]]. done.
    + intros Hin. by exists (r, l).
  - rewrite <- list_fmap_compose.
    by replace (fst ∘ prod_swap) with (@snd string string).
Qed.

Lemma RemoteMap_lookup ca hostPairs prefixPairs l r :
  NoDup (hostPairsOf hostPairs).*1 →
  RemoteMap (New ca hostPairs prefixPairs) !! r = Some l
  ↔ (r, l) ∈ hostPairsOf hostPairs.
Proof.
  intros Hnd. rewrite New_RemoteMap. by apply foldl_insert_lookup.
Qed.

Lemma hostPairOf_elem v part0 part1 hostPairs :
  v ∈ hostPairs → Split v "," = [part0; part1] →
  (part0, hostKey part1) ∈ hostPairsOf hostPairs.
Proof.
  intros Hin Hsplit. unfold hostPairsOf. apply list_elem_of_omap.
  exists v. split; [done|]. unfold hostPairOf. by rewrite Hsplit.
Qed.

(** How [hostKey] normalizes. *)
Lemma hostKey_scheme (h : string) :
  HasPrefix h "http://" = false → hostKey ("http://" +:+ h) = hostKey h.
Proof.
  intros Hh. unfold hostKey.
  by rewrite TrimPrefix_app, (TrimPrefix_miss h).
Qed.

Lemma hostKey_loopback (rest : string) :
  hostKey ("127.0.0.1" +:+ rest) = hostKey ("localhost" +:+ rest).
Proof. vm_compute. reflexivity. Qed.

(** C4, as stated, fails: two well-formed entries whose local hosts
    normalize to the same key leave a remote host in [RemoteMap] that
    [LocalMap] does not map back to. *)
Lemma New_tables_not_inverse :
  Forall wellFormed sample.clashing
  ∧ ¬ (∀ l r, LocalMap (New sample.ca sample.clashing []) !! l = Some r
              ↔ RemoteMap (New sample.ca sample.clashing []) !! r = Some l).
Proof.
  split.
  - repeat constructor.
  - intros Hinv.
    assert (Hr : RemoteMap (New sample.ca sample.clashing []) !! "a.com:443"
                 = Some "localhost:7777") by (vm_compute; reflexivity).
    apply Hinv in Hr. vm_compute in Hr. discriminate.
Qed.

(** C4, amended: when the entries name pairwise distinct remote hosts and
    pairwise distinct normalized local hosts, every well-formed entry is in
    both tables, [LocalMap] from the normalized local host to the remote
    host and [RemoteMap] back, and the two tables are exact inverses.
    [hostKey] strips one leading ["http://"] and reads ["127.0.0.1"] as
    ["localhost"]. *)
Theorem New_tables_inverse ca hostPairs prefixPairs
    (Hremote : NoDup (hostPairsOf hostPairs).*1)
    (Hlocal : NoDup (hostPairsOf hostPairs).*2) :
  let p := New ca hostPairs prefixPairs in
  (∀ v part0 part1, v ∈ hostPairs → Split v "," = [part0; part1] →
     LocalMap p !! hostKey part1 = Some part0
     ∧ RemoteMap p !! part0 = Some (hostKey part1))
  ∧ (∀ l r, LocalMap p !! l = Some r ↔ RemoteMap p !! r = Some l)
  ∧ (∀ h, HasPrefix h "http://" = false → hostKey ("http://" +:+ h) = hostKey h)
  ∧ hostKey "http://a.com" = "a.com" ∧ hostKey "a.com" = "a.com"
  ∧ (∀ rest, hostKey ("127.0.0.1" +:+ rest) = hostKey ("localhost" +:+ rest))
  ∧ hostKey "127.0.0.1:7777" = "localhost:7777"
  ∧ hostKey "localhost:7777" = "localhost:7777".
Proof.
  intros p. subst p.
  split; [|split; [|split; [|split; [|split; [|split; [|split]]]]]].
  - intros v part0 part1 Hin Hsplit. split.
    + apply LocalMap_lookup; [done|]. by eapply hostPairOf_elem.
    + apply RemoteMap_lookup; [done|]. by eapply hostPairOf_elem.
  - intros l r. split.
    + intros Hl. apply RemoteMap_lookup; [done|].
      by apply LocalMap_lookup in Hl.
    + intros Hr. apply LocalMap_lookup; [done|].
      by apply RemoteMap_lookup in Hr.
  - apply hostKey_scheme.
  - reflexivity.
  - reflexivity.
  - apply hostKey_loopback.
  - reflexivity.
  - reflexivity.
Qed.

Lemma New_tables_inverse_witness :
  let p := New sample.ca ["yoursite.com:443,127.0.0.1:7777";
                          "other.org:443,http://localhost:8080"] [] in
  LocalMap p !! "localhost:8080" = Some "other.org:443"
  ∧ RemoteMap p !! "yoursite.com:443" = Some "localhost:7777".
Proof.
  intros p.
  assert (Hremote : NoDup (hostPairsOf
            ["yoursite.com:443,127.0.0.1:7777";
             "other.org:443,http://localhost:8080"]).*1)
    by by_compute.
  assert (Hlocal : NoDup (hostPairsOf
            ["yoursite.com:443,127.0.0.1:7777";
             "other.org:443,http://localhost:8080"]).*2)
    by by_compute.
  destruct (New_tables_inverse sample.ca _ [] Hremote Hlocal) as (Hin & Hinv & _).
  split.
  - apply (Hin "other.org:443,http://localhost:8080" "other.org:443"
             "http://localhost:8080"); [by_compute | reflexivity].
  - apply (Hin "yoursite.com:443,127.0.0.1:7777" "yoursite.com:443"
             "127.0.0.1:7777"); [by_compute | reflexivity].
Defined.

(** C9: an entry of [hostPairs] or of [prefixPairs] that does not split
    into exactly two fields leaves no mark: [New] builds the same
    dispatcher, hence the same [LocalMap], [RemoteMap] and [PrefixMap], as
    from the lists without that entry. *)
Theorem New_ignores_malformed ca (v : string) (Hv : ¬ wellFormed v) :
  (∀ hp1 hp2 prefixPairs,
     New ca (hp1 ++ v :: hp2) prefixPairs = New ca (hp1 ++ hp2) prefixPairs)
  ∧ (∀ hostPairs pp1 pp2,
       New ca hostPairs (pp1 ++ v :: pp2) = New ca hostPairs (pp1 ++ pp2)).
Proof.
  split; intros; unfold New.
  - rewrite (foldl_skip addHostPair); [done|].
    intros a. by apply addHostPair_malformed.
  - rewrite (foldl_skip addPrefixPair); [done|].
    intros a. by apply addPrefixPair_malformed.
Qed.

Lemma New_ignores_malformed_witness :
  New sample.ca (["yoursite.com:443,127.0.0.1:7777"] ++ "a,b,c" :: ["x,y"])
    ["yoursite.com:443,/api"]
  = New sample.ca (["yoursite.com:443,127.0.0.1:7777"] ++ ["x,y"])
      ["yoursite.com:443,/api"].
Proof.
  assert (Hv : ¬ wellFormed "a,b,c") by (vm_compute; lia).
  exact (proj1 (New_ignores_malformed sample.ca "a,b,c" Hv)
           ["yoursite.com:443,127.0.0.1:7777"] ["x,y"] ["yoursite.com:443,/api"]).
Defined.

End host_tables.

(** ** The terminating proxy (package httpsproxy) *)

Module httpsproxy_facts.
Import httpsproxy.
Section httpsproxy_facts.
Context {W : Type} `{GoLib W}.

(** The loop hands the request to [next] at the first prefix that the path
    starts with, and to [target] when there is none. *)
Lemma ServeHTTP_range_next hp ps req :
  Exists (fun prefix => HasPrefix (url.Path (http.URL req)) prefix = true) ps →
  ServeHTTP_range hp ps req = serveVia ViaNext (next hp) req.
Proof.
  induction ps as [|prefix ps IH]; intros Hex; simpl.
  - by apply Exists_nil in Hex.
  - destruct (HasPrefix (url.Path (http.URL req)) prefix) eqn:Hp; [done|].
    apply Exists_cons in Hex as [Hhd|Htl]; [congruence | by apply IH].
Qed.

Lemma ServeHTTP_range_target hp ps req :
  Forall (fun prefix => HasPrefix (url.Path (http.URL req)) prefix = false) ps →
  ServeHTTP_range hp ps req = serveVia ViaTarget (target hp) req.
Proof.
  induction ps as [|prefix ps IH]; intros Hall; simpl; [done|].
  apply Forall_cons in Hall as [-> Htl]. by apply IH.
Qed.

(** What [makeDirector] builds: the given director runs first, then only
    [Host] is overwritten. *)
Lemma makeDirector_spec director host r :
  http.Host (makeDirector director host r) = host
  ∧ http.Method (makeDirector director host r) = http.Method (director r)
  ∧ http.URL (makeDirector director host r) = http.URL (director r)
  ∧ http.Header (makeDirector director host r) = http.Header (director r).
Proof. done. Qed.

(** A successful [StartServer] binds a listener, parses both hosts, installs
    the two reverse proxies with their directors, and launches the server
    on the address it returns. *)
Lemma StartServer_ok hp s hp' addr s' :
  StartServer hp s = ((hp', (addr, None)), s') →
  ∃ listener w' targetURL nextURL,
    net_Listen "tcp" ":0" (world s) = (inl listener, w')
    ∧ url_Parse ("http://" +:+ targetHost hp) = inl targetURL
    ∧ url_Parse ("https://" +:+ nextHost hp) = inl nextURL
    ∧ target hp' = Some (httputil.mkReverseProxy
                           (makeDirector (httputil_defaultDirector targetURL)
                              (url.Host nextURL)))
    ∧ next hp' = Some (httputil.mkReverseProxy
                         (makeDirector (httputil_defaultDirector nextURL)
                            (url.Host nextURL)))
    ∧ cfg hp' = cfg hp ∧ targetHost hp' = targetHost hp
    ∧ nextHost hp' = nextHost hp ∧ prefixes hp' = prefixes hp
    ∧ addr = "localhost:" +:+ pretty (net.Port listener)
    ∧ s' = mkState w' (trace s ++ [EvListen "tcp" ":0"; EvServeTLS addr hp']).
Proof.
  unfold StartServer, bind, call, emit, ret.
  destruct (net_Listen "tcp" ":0" (world s)) as [[listener|e] w'] eqn:Hl;
    [|done].
  destruct (url_Parse ("http://" +:+ targetHost hp)) as [targetURL|e]; [|done].
  destruct (url_Parse ("https://" +:+ nextHost hp)) as [nextURL|e]; [|done].
  simpl. intros [= <- <- <-].
  exists listener, w', targetURL, nextURL.
  repeat split; try done. by rewrite <- (assoc_L _ _ [_] [_]).
Qed.

(** A failed [StartServer] launches no server. *)
Lemma StartServer_err hp s hp' addr e s' :
  StartServer hp s = ((hp', (addr, Some e)), s') →
  hp' = hp ∧ addr = "" ∧ trace s' = (trace s ++ [EvListen "tcp" ":0"])%list.
Proof.
  unfold StartServer, bind, call, emit, ret.
  destruct (net_Listen "tcp" ":0" (world s)) as [[listener|e'] w'] eqn:Hl.
  - destruct (url_Parse ("http://" +:+ targetHost hp)) as [targetURL|e1];
      [|by intros [= <- <- <- <-]].
    destruct (url_Parse ("https://" +:+ nextHost hp)) as [nextURL|e2];
      [|by intros [= <- <- <- <-]].
    done.
  - by intros [= <- <- <- <-].
Qed.

(** C6: a started proxy hands a request whose path starts with one of the
    configured prefixes, as a literal string prefix, to the reverse proxy
    for the pass-through host ([next], built from ["https://" + nextHost]),
    and any other request to the reverse proxy for the masquerade host
    ([target], built from ["http://" + targetHost]). *)
Theorem ServeHTTP_routes_by_prefix hp s hp' addr s' req
    (Hstart : StartServer hp s = ((hp', (addr, None)), s')) :
  ∃ targetURL nextURL,
    url_Parse ("http://" +:+ targetHost hp) = inl targetURL
    ∧ url_Parse ("https://" +:+ nextHost hp) = inl nextURL
    ∧ ((∃ prefix rest, prefix ∈ prefixes hp
                       ∧ url.Path (http.URL req) = prefix +:+ rest) →
       ServeHTTP hp' req
       = Returns (ViaNext,
                  makeDirector (httputil_defaultDirector nextURL)
                    (url.Host nextURL) req))
    ∧ ((∀ prefix rest, prefix ∈ prefixes hp →
                       url.Path (http.URL req) ≠ prefix +:+ rest) →
       ServeHTTP hp' req
       = Returns (ViaTarget,
                  makeDirector (httputil_defaultDirector targetURL)
                    (url.Host nextURL) req)).
Proof.
  apply StartServer_ok in Hstart
    as (listener & w' & targetURL & nextURL & _ & Ht & Hn & Htarget & Hnext
        & _ & _ & _ & Hprefixes & _).
  exists targetURL, nextURL. split; [done|]. split; [done|].
  unfold ServeHTTP. rewrite Hprefixes. split.
  - intros (prefix & rest & Hin & Hpath).
    rewrite ServeHTTP_range_next.
    + by rewrite Hnext.
    + apply Exists_exists. exists prefix. split; [done|].
      apply HasPrefix_spec. by exists rest.
  - intros Hnone. rewrite ServeHTTP_range_target.
    + by rewrite Htarget.
    + apply Forall_forall. intros prefix Hin.
      destruct (HasPrefix (url.Path (http.URL req)) prefix) eqn:Hp; [|done].
      apply HasPrefix_spec in Hp as [rest Hrest]. by destruct (Hnone prefix rest).
Qed.


End httpsproxy_facts.

Lemma sampleStarted_ok :
  StartServer sample.sampleProxy sample.state0
  = ((sample.sampleStarted, ("localhost:40000", None)),
     (StartServer sample.sampleProxy sample.state0).2).
Proof. vm_compute. reflexivity. Defined.

Lemma ServeHTTP_routes_by_prefix_witness :
  ServeHTTP sample.sampleStarted (sample.getReq "https" "yoursite.com:443" "/api/v1")
  = Returns (ViaNext,
             http.mkRequest "GET"
               (url.mkURL "https" "yoursite.com:443" "/api/v1" "" "")
               "yoursite.com:443" [])
  ∧ ServeHTTP sample.sampleStarted (sample.getReq "https" "yoursite.com:443" "/main.js")
    = Returns (ViaTarget,
               http.mkRequest "GET"
                 (url.mkURL "http" "localhost:7777" "/main.js" "" "")
                 "yoursite.com:443" []).
Proof.
  split.
  - destruct (ServeHTTP_routes_by_prefix sample.sampleProxy sample.state0
                sample.sampleStarted "localhost:40000"
                (StartServer sample.sampleProxy sample.state0).2
                (sample.getReq "https" "yoursite.com:443" "/api/v1")
                sampleStarted_ok)
      as (targetURL & nextURL & Ht & Hn & Hnext & _).
    injection Ht as <-. injection Hn as <-.
    apply Hnext. exists "/api", "/v1". split; [by_compute | reflexivity].
  - destruct (ServeHTTP_routes_by_prefix sample.sampleProxy sample.state0
                sample.sampleStarted "localhost:40000"
                (StartServer sample.sampleProxy sample.state0).2
                (sample.getReq "https" "yoursite.com:443" "/main.js")
                sampleStarted_ok)
      as (targetURL & nextURL & Ht & Hn & _ & Htarget).
    injection Ht as <-. injection Hn as <-.
    apply Htarget. intros prefix rest Hin.
    apply list_elem_of_singleton in Hin as ->. discriminate.
Defined.


End httpsproxy_facts.

(** ** The fake root authority (package fakeca) *)

Module fakeca_facts.
Import fakeca props.

Section fakeca_facts.
Context {W : Type} `{GoLib W}.

Lemma issued_app tr1 tr2 : issued (tr1 ++ tr2) = (issued tr1 ++ issued tr2)%list.
Proof. apply omap_app. Qed.

(** The steps of [NewCert], with the world after each. *)
Lemma NewCert_run ca dnsNames s :
  ∃ t1 w1 t2 w2 r w3,
    time_Now (world s) = (t1, w1) ∧ time_Now w1 = (t2, w2)
    ∧ rsa_GenerateKey 4096 w2 = (r, w3)
    ∧ let cert := leafTemplate (time_AddDate t1 0 0 (-7))
                    (time_AddDate t2 10 0 0) dnsNames in
      match r with
      | inr err =>
          NewCert ca dnsNames s
          = (([], [], Some err),
             mkState w3 (trace s ++ [EvNewCert dnsNames; EvGenerateKey 4096]))
      | inl certPrivKey =>
          ∃ r' w4,
            x509_CreateCertificate cert (Cert ca)
              (rsa.PublicKey_ certPrivKey) (PrivKey ca) w3 = (r', w4)
            ∧ (NewCert ca dnsNames s).2
              = mkState w4 (trace s ++ [EvNewCert dnsNames; EvGenerateKey 4096;
                                        EvCreateCertificate cert (Cert ca)])
            ∧ match r' with
              | inr err => (NewCert ca dnsNames s).1 = ([], [], Some err)
              | inl certBytes =>
                  let keyBuf :=
                    (pem_Encode (pem.mkBlock "RSA PRIVATE KEY" []
                                   (x509_MarshalPKCS1PrivateKey certPrivKey))).1 in
                  let certBuf :=
                    pem_Encode (pem.mkBlock "CERTIFICATE" [] certBytes) in
                  (NewCert ca dnsNames s).1
                  = match certBuf.2 with
                    | Some e => ([], [], Some e)
                    | None => (certBuf.1, keyBuf, None)
                    end
              end
      end.
Proof.
  unfold NewCert, bind, call, quiet, emit, ret. simpl.
  destruct (time_Now (world s)) as [t1 w1] eqn:Ht1. simpl.
  destruct (time_Now w1) as [t2 w2] eqn:Ht2. simpl.
  destruct (rsa_GenerateKey 4096 w2) as [r w3] eqn:Hk. simpl.
  exists t1, w1, t2, w2, r, w3. do 3 (split; [done|]).
  destruct r as [certPrivKey|err]; simpl.
  - match goal with
    | |- context [x509_CreateCertificate ?a ?b ?c ?d w3] =>
        destruct (x509_CreateCertificate a b c d w3) as [r' w4] eqn:Hc
    end. simpl.
    exists r', w4. split; [done|].
    rewrite <- !(assoc_L (++)). simpl.
    destruct r' as [certBytes|err]; simpl; [|done].
    destruct (pem_Encode (pem.mkBlock "RSA PRIVATE KEY" _ _)) as [keyBuf e1].
    destruct (pem_Encode (pem.mkBlock "CERTIFICATE" _ _)) as [certBuf [e2|]];
      done.
  - by rewrite <- !(assoc_L (++)).
Qed.

(** [NewCert] launches no server. *)
Lemma NewCert_trace ca dnsNames s :
  ∃ tl, trace (NewCert ca dnsNames s).2
        = (trace s ++ EvNewCert dnsNames :: EvGenerateKey 4096 :: tl)%list
        ∧ (tl = [] ∨ ∃ template, tl = [EvCreateCertificate template (Cert ca)]).
Proof.
  destruct (NewCert_run ca dnsNames s)
    as (t1 & w1 & t2 & w2 & r & w3 & _ & _ & _ & Hrun).
  destruct r as [certPrivKey|err].
  - destruct Hrun as (r' & w4 & _ & -> & _). eexists. split; [done|].
    right. by eexists.
  - rewrite Hrun. exists []. split; [done | by left].
Qed.

(** C1 breaks here: with a key that decodes and parses, a certificate
    input in which [pem.Decode] finds no block makes [FromKeyPair]
    dereference the nil block. *)
Lemma FromKeyPair_nil_cert_block keyPEM certPEM keyBlock rest key rest' :
  pem_Decode keyPEM = (Some keyBlock, rest) →
  pem.Type_ keyBlock = "RSA PRIVATE KEY" →
  x509_ParsePKCS1PrivateKey (pem.Bytes keyBlock) = (Some key, None) →
  pem_Decode certPEM = (None, rest') →
  FromKeyPair keyPEM certPEM
  = Panics "invalid memory address or nil pointer dereference".
Proof.
  intros Hk Ht Hp Hc. unfold FromKeyPair. rewrite Hk, Ht, Hp, Hc.
  by rewrite bool_decide_eq_true_2.
Qed.

(** Everywhere else [FromKeyPair] returns, with an authority or an error. *)
Lemma FromKeyPair_returns keyPEM certPEM :
  (∀ keyBlock rest key, pem_Decode keyPEM = (Some keyBlock, rest) →
     pem.Type_ keyBlock = "RSA PRIVATE KEY" →
     x509_ParsePKCS1PrivateKey (pem.Bytes keyBlock) = (Some key, None) →
     (pem_Decode certPEM).1 ≠ None) →
  (∃ ca, FromKeyPair keyPEM certPEM = Returns (Some ca, None))
  ∨ (∃ e, FromKeyPair keyPEM certPEM = Returns (None, Some e)).
Proof.
  intros Hcert. unfold FromKeyPair.
  destruct (pem_Decode keyPEM) as [[keyBlock|] rest] eqn:Hk; [|right; eauto].
  case_bool_decide as Ht; simpl; [|right; eauto].
  destruct (x509_ParsePKCS1PrivateKey _) as [privKey [e|]] eqn:Hp;
    [right; eauto|].
  destruct (pem_Decode certPEM) as [certDER rest'] eqn:Hc.
  destruct privKey as [key|]; [|right; eauto].
  destruct certDER as [certBlock|].
  - case_bool_decide; simpl; [|right; eauto].
    destruct (x509_ParseCertificate _); [left | right]; eauto.
  - by destruct (Hcert keyBlock rest key).
Qed.


End fakeca_facts.

Lemma FromKeyPair_panics_on_empty_cert :
  FromKeyPair [Byte.x4b; Byte.x30] []
  = Panics "invalid memory address or nil pointer dereference".
Proof.
  apply (FromKeyPair_nil_cert_block [Byte.x4b; Byte.x30] []
           (pem.mkBlock "RSA PRIVATE KEY" [] [Byte.x30]) [] (sample.key 1) []);
    reflexivity.
Defined.


End fakeca_facts.

(** ** The dispatcher (package connectproxy), one request at a time *)

Module connectproxy_facts.
Import connectproxy props.

Section connectproxy_facts.
Context {W : Type} `{GoLib W}.

Lemma started_app tr1 tr2 :
  started (tr1 ++ tr2) = (started tr1 ++ started tr2)%list.
Proof. apply omap_app. Qed.

Lemma NewCert_started ca dnsNames s :
  started (trace (fakeca.NewCert ca dnsNames s).2) = started (trace s).
Proof.
  destruct (fakeca_facts.NewCert_trace ca dnsNames s) as (tl & -> & Htl).
  rewrite started_app. simpl.
  destruct Htl as [->|[template ->]]; simpl; by rewrite app_nil_r.
Qed.

(** A failed creation returns the error, leaves the dispatcher as it was
    and launches no server. *)
Lemma createProxy_fails p req localHost s e :
  creationFails p req localHost s e →
  ∃ s', createProxy p req localHost s = ((p, ("", Some e)), s')
        ∧ started (trace s') = started (trace s).
Proof.
  intros Hfail. unfold createProxy, bind, ret.
  pose proof (NewCert_started (FakeCA p) [url_Hostname (http.URL req)] s) as Hst.
  destruct Hfail as [c k s1 Hcert | c k s1 Hcert Hpair
                    | c k s1 serverCert hp Hcert Hpair Hnew
                    | c k s1 serverCert hp hp' addr s2 Hcert Hpair Hnew Hstart];
    rewrite Hcert in *; cbn [fst snd] in *.
  - eauto.
  - rewrite Hpair. eauto.
  - rewrite Hpair, Hnew. eauto.
  - rewrite Hpair, Hnew, Hstart. eexists. split; [done|].
    apply httpsproxy_facts.StartServer_err in Hstart as (_ & _ & ->).
    rewrite started_app. simpl. by rewrite app_nil_r.
Qed.

(** Creation always begins by asking the authority for a certificate for
    the host name of the request. *)
Lemma createProxy_calls_NewCert p req localHost s :
  ∃ tl, trace (createProxy p req localHost s).2
        = (trace s ++ EvNewCert [url_Hostname (http.URL req)] :: tl)%list.
Proof.
  unfold createProxy, bind, ret.
  destruct (fakeca_facts.NewCert_trace (FakeCA p)
              [url_Hostname (http.URL req)] s) as (tl & Htl & _).
  destruct (fakeca.NewCert _ _ s) as [[[c k] [e|]] s1]; simpl in *;
    [eauto|].
  destruct (tls_X509KeyPair c k) as [serverCert|e]; simpl; [|eauto].
  destruct (httpsproxy.StartServer _ s1) as [[hp' [addr err]] s2] eqn:Hstart.
  simpl. destruct err as [e|]; simpl.
  - apply httpsproxy_facts.StartServer_err in Hstart as (_ & _ & ->).
    rewrite Htl. rewrite <- (assoc_L (++)). simpl. eauto.
  - apply httpsproxy_facts.StartServer_ok in Hstart
      as (l & w' & tu & nu & _ & _ & _ & _ & _ & _ & _ & _ & _ & _ & ->).
    simpl. rewrite Htl. rewrite <- (assoc_L (++)). simpl. eauto.
Qed.

(** C3: when the host of a CONNECT request is mapped, no proxy for it is
    recorded yet, and creation fails (issuing the certificate, building the
    TLS key pair, constructing the proxy, or starting its server),
    [handleConnect] answers 503 with the error text, the dispatcher and
    with it [ProxyMap] are unchanged, no server has been launched, and a
    later request for the same host goes through creation again, from the
    certificate on. *)
Theorem handleConnect_creation_failure p w req s localHost e
    (Hmapped : RemoteMap p !! http.Host req = Some localHost)
    (Hunseen : ProxyMap p !! localHost = None)
    (Hfail : creationFails p req localHost s e) :
  ∃ s', handleConnect p w req s
        = ((p, Returns (Error e http.StatusServiceUnavailable)), s')
        ∧ http.StatusServiceUnavailable = 503%Z
        ∧ started (trace s') = started (trace s)
        ∧ ∀ s2, maybeStartHTTPSProxy p req s2 = createProxy p req localHost s2
                ∧ ∃ tl, trace (maybeStartHTTPSProxy p req s2).2
                        = (trace s2
                           ++ EvNewCert [url_Hostname (http.URL req)] :: tl)%list.
Proof.
  destruct (createProxy_fails _ _ _ _ _ Hfail) as (s' & Hcreate & Hstarted).
  assert (Hagain : ∀ s2,
    maybeStartHTTPSProxy p req s2 = createProxy p req localHost s2).
  { intros s2. unfold maybeStartHTTPSProxy. by rewrite Hmapped, Hunseen. }
  exists s'. split; [|split; [done|split; [done|]]].
  - unfold handleConnect, bind, ret. by rewrite Hagain, Hcreate.
  - intros s2. split; [done|]. rewrite Hagain.
    apply createProxy_calls_NewCert.
Qed.

(** C8: for a CONNECT request whose host is not a key of [RemoteMap],
    [maybeStartHTTPSProxy] returns empty and changes nothing (no call of
    [NewCert], no entry in [ProxyMap]), and [handleConnect] dials the
    requested host itself: a dial error is answered with 503, and after a
    successful dial only the tunnel to that host is set up. *)
Theorem handleConnect_unmapped p w req s
    (Hunmapped : RemoteMap p !! http.Host req = None) :
  maybeStartHTTPSProxy p req s = ((p, ("", None)), s)
  ∧ ∃ out s' tl,
      handleConnect p w req s = ((p, out), s')
      ∧ trace s' = (trace s ++ EvDial "tcp" (http.Host req) :: tl)%list
      ∧ Forall tunnelEvent tl
      ∧ match net_Dial "tcp" (http.Host req) (world s) with
        | (inr e, _) => out = Returns (Error e http.StatusServiceUnavailable)
        | (inl targetConn, w1) =>
            if Hijacker w
            then match http_Hijack w1 with
                 | (inl clientConn, _) =>
                     out = Returns (Tunnelled (http.Host req))
                     ∧ tl = [EvWriteHeader 200; EvHijack;
                             EvTunnel targetConn clientConn;
                             EvTunnel clientConn targetConn]
                 | (inr _, _) => out = Fatal "HTTP hijacking failed"
                 end
            else out = Fatal "HTTP server doesn't support hijacking connection"
        end.
Proof.
  assert (Hmaybe : maybeStartHTTPSProxy p req s = ((p, ("", None)), s)).
  { unfold maybeStartHTTPSProxy, ret. by rewrite Hunmapped. }
  split; [done|].
  unfold handleConnect, bind, call, emit, ret. rewrite Hmaybe. simpl.
  destruct (net_Dial "tcp" (http.Host req) (world s)) as [[targetConn|e] w1].
  - simpl. destruct (Hijacker w); simpl.
    + destruct (http_Hijack w1) as [[clientConn|e] w2]; simpl.
      * eexists _, _, _. split; [done|].
        rewrite <- !(assoc_L (++)). simpl. split; [done|].
        split; [|done]. by repeat constructor.
      * eexists _, _, _. split; [done|].
        rewrite <- !(assoc_L (++)). simpl. split; [done|].
        split; [|done]. by repeat constructor.
    + eexists _, _, _. split; [done|].
      rewrite <- !(assoc_L (++)). simpl. split; [done|].
      split; [|done]. by repeat constructor.
  - eexists _, _, []. split; [done|]. simpl. split; [done|].
    split; [constructor | done].
Qed.

(** The redirect target keeps the path, names the remote host, and has the
    scheme ["https"] exactly when the request URL had ["http"] or
    ["https"]. *)
Lemma redirectURL_spec u remoteHost :
  url.Host (redirectURL u remoteHost) = remoteHost
  ∧ url.Path (redirectURL u remoteHost) = url.Path u
  ∧ url.RawQuery (redirectURL u remoteHost) = url.RawQuery u
  ∧ url.Fragment (redirectURL u remoteHost) = url.Fragment u
  ∧ url.Scheme (redirectURL u remoteHost)
    = (if bool_decide (url.Scheme u = "http") then "https" else url.Scheme u).
Proof. unfold redirectURL. simpl. by case_bool_decide. Qed.

(** C5, amended: a request that is neither a CONNECT nor for the reserved
    path [/quitquitquit] is answered, when its normalized host is a key of
    [LocalMap], with a 307 redirect to the same path (and query) on the
    mapped remote host, the scheme being ["https"] if the request URL had
    ["http"] and the request's own scheme otherwise; when the host is not a
    key, with 405. Nothing else happens. *)
Theorem ServeHTTP_non_CONNECT p w req s
    (Hmethod : http.Method req ≠ http.MethodConnect)
    (Hpath : url.Path (http.URL req) ≠ "/quitquitquit") :
  match LocalMap p !! hostKey (http.Host req) with
  | Some remoteHost =>
      ServeHTTP p w req s
      = ((p, Returns
               (Redirect
                  (url_String
                     (url.mkURL
                        (if bool_decide (url.Scheme (http.URL req) = "http")
                         then "https" else url.Scheme (http.URL req))
                        remoteHost (url.Path (http.URL req))
                        (url.RawQuery (http.URL req))
                        (url.Fragment (http.URL req))))
                  307)), s)
  | None =>
      ∃ msg, ServeHTTP p w req s = ((p, Returns (Error msg 405)), s)
  end.
Proof.
  unfold ServeHTTP, ret.
  rewrite bool_decide_eq_false_2 by done.
  rewrite bool_decide_eq_true_2 by done.
  unfold redirectToHTTPS.
  destruct (LocalMap p !! hostKey (http.Host req)) as [remoteHost|]; [|eauto].
  unfold redirectURL. simpl. by case_bool_decide.
Qed.

End connectproxy_facts.

(** C5, as stated, fails: a GET in origin form (no scheme in the request
    URL) for a mapped local host is redirected to a URL without scheme,
    not to an ["https"] one; and a GET for the reserved path is not
    redirected at all. *)
Lemma ServeHTTP_redirect_keeps_scheme :
  let w := mkResponseWriter true in
  (ServeHTTP sample.dispatcher w
     (sample.getReq "" "127.0.0.1:7777" "/index.html") sample.state0).1.2
  = Returns (Redirect "//yoursite.com:443/index.html" 307)
  ∧ (ServeHTTP sample.dispatcher w
       (sample.getReq "" "127.0.0.1:7777" "/index.html") sample.state0).1.2
    ≠ Returns (Redirect
                 (url_String (url.mkURL "https" "yoursite.com:443"
                                "/index.html" "" "")) 307)
  ∧ (ServeHTTP sample.dispatcher w
       (sample.getReq "http" "127.0.0.1:7777" "/quitquitquit")
       sample.state0).1.2
    = Returns NoResponse.
Proof.
  intros w. split; [|split].
  - vm_compute. reflexivity.
  - vm_compute. discriminate.
  - vm_compute. reflexivity.
Qed.

Lemma ServeHTTP_non_CONNECT_witness :
  ServeHTTP sample.dispatcher (mkResponseWriter true)
    (sample.getReq "http" "127.0.0.1:7777" "/index.html") sample.state0
  = ((sample.dispatcher,
      Returns (Redirect "https://yoursite.com:443/index.html" 307)),
     sample.state0).
Proof.
  pose proof (ServeHTTP_non_CONNECT sample.dispatcher (mkResponseWriter true)
                (sample.getReq "http" "127.0.0.1:7777" "/index.html")
                sample.state0) as Hserve.
  assert (Hmapped : LocalMap sample.dispatcher
                      !! hostKey (http.Host
                           (sample.getReq "http" "127.0.0.1:7777" "/index.html"))
                    = Some "yoursite.com:443") by (vm_compute; reflexivity).
  rewrite Hmapped in Hserve. apply Hserve; discriminate.
Defined.

Lemma handleConnect_unmapped_witness :
  (handleConnect sample.dispatcher (mkResponseWriter true)
     (sample.connectReq "example.org:443") sample.state0).1.2
  = Returns (Tunnelled "example.org:443").
Proof.
  assert (Hunmapped : RemoteMap sample.dispatcher
                        !! http.Host (sample.connectReq "example.org:443")
                      = None) by (vm_compute; reflexivity).
  destruct (handleConnect_unmapped sample.dispatcher (mkResponseWriter true)
              (sample.connectReq "example.org:443") sample.state0 Hunmapped)
    as (_ & out & s' & tl & -> & _ & _ & Hout).
  simpl in Hout. by destruct Hout as [-> _].
Defined.

Lemma handleConnect_creation_failure_witness :
  (handleConnect sample.dispatcher (mkResponseWriter true)
     (sample.connectReq "yoursite.com:443") sample.noPorts).1
  = (sample.dispatcher,
     Returns (Error "listen tcp :0: bind: address already in use" 503)).
Proof.
  assert (Hmapped : RemoteMap sample.dispatcher
                      !! http.Host (sample.connectReq "yoursite.com:443")
                    = Some "localhost:7777") by (vm_compute; reflexivity).
  assert (Hunseen : ProxyMap sample.dispatcher !! "localhost:7777" = None)
    by (vm_compute; reflexivity).
  destruct (handleConnect_creation_failure sample.dispatcher
              (mkResponseWriter true) (sample.connectReq "yoursite.com:443")
              sample.noPorts "localhost:7777"
              "listen tcp :0: bind: address already in use" Hmapped Hunseen)
    as (s' & -> & _).
  - eapply StartServer_fails; vm_compute; reflexivity.
  - reflexivity.
Defined.

End connectproxy_facts.

(** ** The dispatcher under concurrent requests *)

Module concurrent_facts.
Import connectproxy props connectproxy_facts.

Section concurrent_facts.
Context {W : Type} `{GoLib W}.

Lemma count_app P l1 l2 : count P (l1 ++ l2) = count P l1 + count P l2.
Proof. apply sum_list_with_app. Qed.

Lemma count_insert P (l : list goroutine) i g g' :
  l !! i = Some g →
  count P (<[i := g']> l) + b2n (P (at_ g)) = count P l + b2n (P (at_ g')).
Proof.
  intros Hi.
  rewrite insert_take_drop by (by eapply lookup_lt_Some).
  rewrite <- (take_drop_middle l i g Hi) at 3.
  rewrite !count_app. unfold count at 2 4. simpl. fold (count P (drop (S i) l)).
  lia.
Qed.

Lemma count_ge P (l : list goroutine) i g :
  l !! i = Some g → (b2n (P (at_ g)) ≤ count P l)%nat.
Proof.
  intros Hi. apply (sum_list_with_in g (fun g => b2n (P (at_ g)))).
  by eapply list_elem_of_lookup_2.
Qed.

Lemma count_two P (l : list goroutine) i j gi gj :
  i ≠ j → l !! i = Some gi → l !! j = Some gj →
  (b2n (P (at_ gi)) + b2n (P (at_ gj)) ≤ count P l)%nat.
Proof.
  revert i j. induction l as [|x l IH]; intros i j Hne Hi Hj; [done|].
  unfold count. simpl. fold (count P l).
  destruct i as [|i], j as [|j]; simpl in *; try done.
  - injection Hi as ->. pose proof (count_ge P l j gj Hj). lia.
  - injection Hj as ->. pose proof (count_ge P l i gi Hi). lia.
  - assert (Hne' : i ≠ j) by congruence.
    pose proof (IH i j Hne' Hi Hj). lia.
Qed.

(** At most one goroutine is at a statement of a kind that is counted
    once. *)
Lemma count_unique P (l : list goroutine) i j gi gj :
  (count P l ≤ 1)%nat →
  l !! i = Some gi → P (at_ gi) = true →
  l !! j = Some gj → P (at_ gj) = true →
  i = j.
Proof.
  intros Hle Hi Hgi Hj Hgj. destruct (decide (i = j)) as [|Hne]; [done|].
  pose proof (count_two P l i j gi gj Hne Hi Hj) as Hc.
  rewrite Hgi, Hgj in Hc. simpl in Hc. lia.
Qed.

Lemma startedFor_app k tr1 tr2 :
  startedFor k (tr1 ++ tr2) = (startedFor k tr1 ++ startedFor k tr2)%list.
Proof.
  unfold startedFor. by rewrite started_app, filter_app, fmap_app.
Qed.

Lemma startedFor_started k tr tr' :
  started tr' = started tr → startedFor k tr' = startedFor k tr.
Proof. unfold startedFor. by intros ->. Qed.

(** A goroutine that is not in the critical section is not affected by
    what the one inside does: launching a server, or adding a record for a
    key that had none. *)
Lemma goroutine_ok_frame p tr pm' tr' g :
  goroutine_ok p tr g →
  inCS (at_ g) = false →
  (∀ k di, ProxyMap p !! k = Some di → pm' !! k = Some di) →
  goroutine_ok (setProxyMap p pm') tr' g.
Proof.
  unfold goroutine_ok. intros Hok Hcs Hmono.
  destruct (at_ g) as [| | | k found | | | | | | | | [addr err] | [addr err]];
    simpl in *; try done.
  - destruct Hok as [Hk Hfound]. split; [done|]. eauto.
  - intros Herr k Hk. destruct (Hok Herr k Hk) as (di & Hdi & Haddr). eauto.
Qed.

(** Nor by a step that leaves [ProxyMap] and the launched servers alone. *)
Lemma goroutine_ok_quiet p tr tr' g :
  goroutine_ok p tr g →
  started tr' = started tr →
  goroutine_ok p tr' g.
Proof.
  unfold goroutine_ok. intros Hok Hst.
  destruct (at_ g); simpl in *; try done;
    by rewrite (startedFor_started _ _ _ Hst).
Qed.

Lemma setProxyMap_id p : setProxyMap p (ProxyMap p) = p.
Proof. by destruct p. Qed.

Lemma setProxyMap_twice p pm pm' :
  setProxyMap (setProxyMap p pm) pm' = setProxyMap p pm'.
Proof. done. Qed.


(** A step that launches no server and leaves [ProxyMap] alone keeps the
    invariant once the stepping goroutine and the mutex are accounted
    for. *)
Lemma Inv_quiet p0 p mu (s : state W) ths i r a mu' (s' : state W) a' :
  Inv p0 (mkMachine (mkShared p mu s) ths) →
  ths !! i = Some (mkGoroutine r a) →
  started (trace s') = started (trace s) →
  readers mu' = count inRS (<[i := mkGoroutine r a']> ths) →
  b2n (writer mu') = count inCS (<[i := mkGoroutine r a']> ths) →
  isInsert a = false →
  goroutine_ok p (trace s') (mkGoroutine r a') →
  Inv p0 (mkMachine (mkShared p mu' s') (<[i := mkGoroutine r a']> ths)).
Proof.
  intros [Hstatic Hrd Hwr Hgo Hmap] Hi Hst HR HC Hins Hok.
  simpl in *. constructor; simpl; try done.
  - intros j gj Hj. apply list_lookup_insert_Some in Hj as [(-> & <- & _)|[Hne Hj]].
    + done.
    + eapply goroutine_ok_quiet; eauto.
  - intros k. specialize (Hmap k).
    rewrite (startedFor_started _ _ _ Hst).
    destruct (ProxyMap p !! k) as [di|]; [done|].
    destruct Hmap as [Hnone|(j & gj & addr & c1 & c2 & hp & Hj & Hat)]; [by left|].
    right. exists j, gj, addr, c1, c2, hp. split; [|done].
    rewrite list_lookup_insert_ne; [done|].
    intros ->. rewrite Hi in Hj. injection Hj as <-. simpl in Hat.
    by rewrite Hat in Hins.
Qed.

(** Mutual exclusion: the goroutine in the critical section is alone
    there. *)
Lemma cs_alone p0 (m : @machine W) i g j gj :
  Inv p0 m →
  threads m !! i = Some g → inCS (at_ g) = true →
  threads m !! j = Some gj → inCS (at_ gj) = true →
  j = i ∧ gj = g.
Proof.
  intros HInv Hi Hg Hj Hgj.
  assert (j = i) as ->.
  { eapply (count_unique inCS (threads m)); eauto.
    rewrite <- (inv_writer _ _ HInv). destruct (writer _); simpl; lia. }
  split; [done | congruence].
Qed.

Ltac quiet :=
  match goal with
  | HInv : Inv _ _, Hi : _ !! _ = Some _ |- _ =>
      eapply (Inv_quiet _ _ _ _ _ _ _ _ _ _ _ HInv Hi);
      simpl in *; try done; try lia
  end.

(** Every statement of every goroutine keeps the invariant. *)
Lemma Inv_stepG p0 (m : @machine W) i m' : Inv p0 m → stepG m i = Some m' → Inv p0 m'.
Proof.
  intros HInv Hstep. pose proof HInv as [Hstatic Hrd Hwr Hgo Hmap].
  unfold stepG in Hstep.
  destruct (threads m !! i) as [g|] eqn:Hi; [|done].
  destruct (advance (sh m) (req g) (at_ g)) as [[sh' a']|] eqn:Hadv; [|done].
  injection Hstep as <-.
  pose proof (Hgo i g Hi) as Hgi.
  pose proof (count_insert inRS (threads m) i g (mkGoroutine (req g) a') Hi) as HcR.
  pose proof (count_insert inCS (threads m) i g (mkGoroutine (req g) a') Hi) as HcC.
  pose proof (count_ge inRS (threads m) i g Hi) as HgR.
  pose proof (count_ge inCS (threads m) i g Hi) as HgC.
  destruct m as [[p mu s] ths]; simpl in *.
  destruct g as [r a]; simpl in *. unfold goroutine_ok in Hgi. simpl in Hgi.
  destruct a as [ | k | k | k found | k | k | k | k c1 c2 | k c1 c2 cert
                | k c1 c2 hp | k addr c1 c2 hp | res | res ]; simpl in Hadv.
  - (* AtEntry *)
    destruct (RemoteMap p !! http.Host r) as [k|] eqn:Hk;
      injection Hadv as <- <-; simpl in *.
    + quiet.
    + quiet. unfold goroutine_ok. simpl. intros _ k Hk'. congruence.
  - (* AtRLock *)
    destruct mu as [rd wr]; simpl in *. destruct wr; [done|].
    injection Hadv as <- <-. quiet.
  - (* AtRead *)
    injection Hadv as <- <-. quiet.
  - (* AtRUnlock *)
    destruct mu as [rd wr]; simpl in *.
    destruct found as [info|]; injection Hadv as <- <-.
    + quiet. unfold goroutine_ok. simpl. intros _ k' Hk.
      destruct Hgi as [Hk' Hfound]. exists info. split; [|done].
      replace k' with k by congruence. by apply Hfound.
    + quiet. unfold goroutine_ok. simpl. tauto.
  - (* AtLock *)
    destruct mu as [rd wr]; simpl in *. destruct wr; [done|].
    destruct rd; [|done]. injection Hadv as <- <-. quiet.
  - (* AtRecheck *)
    destruct (ProxyMap p !! k) as [info|] eqn:Hinfo;
      injection Hadv as <- <-.
    + quiet. unfold goroutine_ok. simpl. intros _ k' Hk.
      exists info. split; [|done]. by replace k' with k by congruence.
    + quiet. unfold goroutine_ok. simpl. split; [done|]. split; [done|].
      specialize (Hmap k). rewrite Hinfo in Hmap.
      destruct Hmap as [Hnone|(j & gj & addr & c1 & c2 & hp & Hj & Hat)];
        [done|].
      destruct (cs_alone _ _ _ _ j gj HInv Hi eq_refl Hj) as [_ ->];
        [by rewrite Hat | done].
  - (* AtNewCert *)
    destruct (fakeca.NewCert (FakeCA p) [url_Hostname (http.URL r)] s)
      as [[[c1 c2] err] s1] eqn:Hcert.
    pose proof (NewCert_started (FakeCA p) [url_Hostname (http.URL r)] s) as Hst.
    rewrite Hcert in Hst. simpl in Hst.
    destruct err as [e|]; injection Hadv as <- <-.
    + quiet.
    + quiet. unfold goroutine_ok. simpl.
      by rewrite (startedFor_started _ _ _ Hst).
  - (* AtKeyPair *)
    destruct (tls_X509KeyPair c1 c2) as [serverCert|e];
      injection Hadv as <- <-; quiet.
  - (* AtNew *)
    injection Hadv as <- <-. quiet. unfold goroutine_ok. simpl. tauto.
  - (* AtStartServer *)
    destruct (httpsproxy.StartServer hp s)
      as [[hp' [addr err]] s1] eqn:Hstart.
    destruct err as [e|]; injection Hadv as <- <-.
    + apply httpsproxy_facts.StartServer_err in Hstart as (_ & _ & Htr).
      quiet. rewrite Htr, started_app. simpl. by rewrite app_nil_r.
    + apply httpsproxy_facts.StartServer_ok in Hstart
        as (l & w' & tu & nu & _ & _ & _ & _ & _ & _ & Hth & _ & _ & _ & ->).
      destruct Hgi as (Hkey & Hnone & Hfresh & Hhp).
      assert (Hfor : ∀ k', startedFor k' (trace s ++ [EvListen "tcp" ":0";
                                                      EvServeTLS addr hp'])
                = (startedFor k' (trace s)
                   ++ if decide (k = k') then [addr] else [])%list).
      { intros k'. rewrite startedFor_app. f_equal. unfold startedFor. simpl.
        rewrite Hth, Hhp. rewrite filter_cons. simpl.
        by destruct (decide (k = k')). }
      constructor; simpl in *; try done; try lia.
      * intros j gj Hj.
        apply list_lookup_insert_Some in Hj as [(-> & <- & _)|[Hne Hj]].
        -- unfold goroutine_ok. simpl. rewrite Hfor, Hfresh.
           by rewrite decide_True.
        -- destruct (inCS (at_ gj)) eqn:Hcs.
           ++ by destruct (cs_alone _ _ _ _ j gj HInv Hi eq_refl Hj Hcs).
           ++ pose proof (goroutine_ok_frame p (trace s) (ProxyMap p)
                            (trace s ++ [EvListen "tcp" ":0";
                                         EvServeTLS addr hp'])
                            gj (Hgo j gj Hj) Hcs (fun _ _ h => h)) as Hf.
              by rewrite setProxyMap_id in Hf.
      * intros k'. rewrite Hfor. specialize (Hmap k').
        destruct (decide (k = k')) as [<-|Hne].
        -- rewrite Hnone. right. exists i, (mkGoroutine r (AtInsert k addr c1 c2 hp')).
           eexists _, _, _, _. split; [|done].
           apply list_lookup_insert_eq. by eapply lookup_lt_Some.
        -- rewrite app_nil_r. destruct (ProxyMap p !! k') as [di|]; [done|].
           destruct Hmap as [?|(j & gj & a0 & d1 & d2 & h0 & Hj & Hat)];
             [by left|].
           destruct (cs_alone _ _ _ _ j gj HInv Hi eq_refl Hj) as [_ ->];
             [by rewrite Hat | done].
  - (* AtInsert *)
    injection Hadv as <- <-. destruct Hgi as (Hkey & Hnone & Hfresh).
    destruct Hstatic as [pm ->].
    constructor; simpl in *; try done; try lia.
    + by eexists.
    + intros j gj Hj.
      apply list_lookup_insert_Some in Hj as [(-> & <- & _)|[Hne Hj]].
      * unfold goroutine_ok. simpl. intros _ k' Hk'.
        replace k' with k by congruence. rewrite lookup_insert_eq. by eexists.
      * destruct (inCS (at_ gj)) eqn:Hcs.
        -- by destruct (cs_alone _ _ _ _ j gj HInv Hi eq_refl Hj Hcs).
        -- apply (goroutine_ok_frame (setProxyMap p0 pm) (trace s));
             [by apply (Hgo j) | done |].
           intros k' di Hdi. rewrite lookup_insert_ne; [done|].
           simpl in *. congruence.
    + intros k'. specialize (Hmap k').
      destruct (decide (k = k')) as [<-|Hne].
      * by rewrite lookup_insert_eq.
      * rewrite lookup_insert_ne by done.
        destruct (pm !! k') as [di|]; [done|].
        destruct Hmap as [?|(j & gj & a0 & d1 & d2 & h0 & Hj & Hat)];
          [by left|].
        destruct (cs_alone _ _ _ _ j gj HInv Hi eq_refl Hj) as [_ ->];
          [by rewrite Hat | simpl in Hat; congruence].
  - (* AtUnlock *)
    destruct mu as [rd wr]; simpl in *. injection Hadv as <- <-.
    destruct wr; simpl in *; quiet.
  - (* Done *)
    done.
Qed.

Lemma Inv_step p0 (m m' : @machine W) : Inv p0 m → step m m' → Inv p0 m'.
Proof.
  intros HInv Hstep. destruct Hstep as [m1 i m2 Hstep|m1 w].
  - exact (Inv_stepG _ _ _ _ HInv Hstep).
  - destruct HInv as [Hstatic Hrd Hwr Hgo Hmap]. by constructor.
Qed.

Lemma count_initial P (reqs : list http.Request) :
  P AtEntry = false →
  count P (map (fun r => mkGoroutine r AtEntry) reqs) = 0.
Proof.
  intros HP. induction reqs as [|r reqs IH]; [done|].
  unfold count in *. simpl. by rewrite HP, IH.
Qed.

Lemma Inv_initial p0 (w : W) reqs :
  ProxyMap p0 = ∅ → Inv p0 (initial p0 w reqs).
Proof.
  intros Hempty. constructor; simpl.
  - exists (ProxyMap p0). by rewrite setProxyMap_id.
  - by rewrite count_initial.
  - by rewrite count_initial.
  - intros i g Hi.
    change (((fun r => mkGoroutine r AtEntry) <$> reqs) !! i = Some g) in Hi.
    apply list_lookup_fmap_Some in Hi as (r & -> & _). done.
  - intros k. rewrite Hempty, lookup_empty. by left.
Qed.

Lemma Inv_reachable p0 (w : W) reqs m :
  ProxyMap p0 = ∅ → rtc step (initial p0 w reqs) m → Inv p0 m.
Proof.
  intros Hempty Hreach.
  apply (rtc_ind_r (R := step) (fun m => Inv p0 m) (initial p0 w reqs));
    [by apply Inv_initial | | done].
  intros m1 m2 _ Hstep HInv. exact (Inv_step _ _ _ HInv Hstep).
Qed.



(** Every schedule is a run of the machine. *)
Lemma run_reachable schedule (m : @machine W) : rtc step m (run schedule m).
Proof.
  revert m. induction schedule as [|i schedule IH]; intros m; simpl; [done|].
  destruct (stepG m i) as [m'|] eqn:Hstep; [|done].
  eapply rtc_l; [by eapply step_goroutine | done].
Qed.

Lemma count_exists P (l : list goroutine) :
  (1 ≤ count P l)%nat → ∃ i g, l !! i = Some g ∧ P (at_ g) = true.
Proof.
  induction l as [|x l IH]; unfold count; simpl; [lia|].
  fold (count P l). destruct (P (at_ x)) eqn:Hx.
  - intros _. by exists 0, x.
  - simpl. intros Hl. destruct (IH Hl) as (i & g & Hi & Hg).
    by exists (S i), g.
Qed.

Lemma all_done_or_not (l : list goroutine) :
  (∀ i g, l !! i = Some g → isDone (at_ g) = true)
  ∨ ∃ i g, l !! i = Some g ∧ isDone (at_ g) = false.
Proof.
  induction l as [|x l IH].
  - left. intros i g Hi. done.
  - destruct (isDone (at_ x)) eqn:Hx; [|right; by exists 0, x].
    destruct IH as [Hall|(i & g & Hi & Hg)].
    + left. intros [|i] g Hi; simpl in Hi; [congruence | by eapply Hall].
    + right. by exists (S i), g.
Qed.

(** A goroutine that holds a lock, or needs none, can run its next
    statement; one that waits for a lock can when the mutex is free. *)
Lemma advance_enabled (sh : @shared W) r a :
  isDone a = false →
  inCS a = true ∨ inRS a = true
  ∨ (writer (mutex sh) = false ∧ readers (mutex sh) = 0) →
  is_Some (advance sh r a).
Proof.
  intros Hdone Hcan. destruct sh as [p [rd wr] s]. simpl in *.
  destruct a; simpl in *; try done;
    repeat match goal with
           | |- is_Some (match ?x with _ => _ end) => destruct x eqn:?
           | |- is_Some (if ?x then _ else _) => destruct x eqn:?
           | |- is_Some (let (_, _) := ?x in _) => destruct x eqn:?
           | |- is_Some (Some _) => by eexists
           end;
    destruct Hcan as [?|[?|[? ?]]]; congruence.
Qed.

(** The goroutines never all wait: unless every one has returned, some
    goroutine can run its next statement. *)
Lemma Inv_progress p0 (m : @machine W) :
  Inv p0 m →
  (∀ i g, threads m !! i = Some g → ∃ result, at_ g = Done result)
  ∨ ∃ i m', stepG m i = Some m'.
Proof.
  intros [_ Hrd Hwr _ _].
  assert (Hgo : ∀ i g, threads m !! i = Some g → isDone (at_ g) = false →
    inCS (at_ g) = true ∨ inRS (at_ g) = true
    ∨ (writer (mutex (sh m)) = false ∧ readers (mutex (sh m)) = 0) →
    ∃ i m', stepG m i = Some m').
  { intros i g Hi Hdone Hcan. exists i. unfold stepG. rewrite Hi.
    destruct (advance_enabled (sh m) (req g) (at_ g) Hdone Hcan)
      as [[sh' a'] ->]. by eexists. }
  destruct (writer (mutex (sh m))) eqn:Hw; simpl in Hwr.
  { destruct (count_exists inCS (threads m)) as (i & g & Hi & Hg); [lia|].
    right. apply (Hgo i g Hi); [by destruct (at_ g) | by left]. }
  destruct (readers (mutex (sh m))) as [|n] eqn:Hr.
  - destruct (all_done_or_not (threads m)) as [Hall|(i & g & Hi & Hg)].
    + left. intros i g Hi. specialize (Hall i g Hi).
      destruct (at_ g); try done. by eexists.
    + right. apply (Hgo i g Hi Hg). by right; right.
  - destruct (count_exists inRS (threads m)) as (i & g & Hi & Hg); [lia|].
    right. apply (Hgo i g Hi); [by destruct (at_ g) | by right; left].
Qed.

Lemma sum_insert (f : goroutine → nat) (l : list goroutine) i g g' :
  l !! i = Some g →
  sum_list_with f (<[i := g']> l) + f g = sum_list_with f l + f g'.
Proof.
  intros Hi.
  rewrite insert_take_drop by (by eapply lookup_lt_Some).
  rewrite <- (take_drop_middle l i g Hi) at 3.
  rewrite !sum_list_with_app. simpl. lia.
Qed.

Lemma advance_decreases (sh sh' : @shared W) r a a' :
  advance sh r a = Some (sh', a') → (remaining a' < remaining a)%nat.
Proof.
  intros Hadv. destruct sh as [p [rd wr] s].
  destruct a; simpl in Hadv;
    repeat match type of Hadv with
           | match ?x with _ => _ end = _ => destruct x
           | (if ?x then _ else _) = _ => destruct x
           | (let (_, _) := ?x in _) = _ => destruct x
           end;
    try discriminate; injection Hadv as <- <-; simpl; lia.
Qed.

Lemma stepG_decreases (m m' : @machine W) i :
  stepG m i = Some m' → (fuel (threads m') < fuel (threads m))%nat.
Proof.
  unfold stepG. intros Hstep.
  destruct (threads m !! i) as [g|] eqn:Hi; [|done].
  destruct (advance _ _ _) as [[sh' a']|] eqn:Hadv; [|done].
  injection Hstep as <-. simpl.
  pose proof (sum_insert (fun g => remaining (at_ g)) (threads m) i g
                (mkGoroutine (req g) a') Hi) as Hsum.
  apply advance_decreases in Hadv. unfold fuel. simpl in Hsum. lia.
Qed.







End concurrent_facts.



End concurrent_facts.

(** ** More on the tables built by [connectproxy.New] *)

Module tables_more.
Import connectproxy props New_facts.

Lemma app_cons c (a b : string) : String c a +:+ b = String c (a +:+ b).
Proof. reflexivity. Qed.

Lemma app_nil (b : string) : "" +:+ b = b.
Proof. reflexivity. Qed.

Lemma app_assoc_s (a b c : string) : (a +:+ b) +:+ c = a +:+ (b +:+ c).
Proof.
  induction a as [|x a IH]; [done|]. by rewrite !app_cons, IH.
Qed.

Lemma app_empty_r (a : string) : a +:+ "" = a.
Proof. induction a as [|x a IH]; [done|]. by rewrite app_cons, IH. Qed.

(** One step of the splitting loop on the separator [","]. *)
Lemma splitFrom_comma_cons cur c s :
  splitFrom "," 0 cur (String c s)
  = if bool_decide (String c EmptyString = ",")
    then cur :: splitFrom "," 0 "" s
    else splitFrom "," 0 (cur +:+ String c "") s.
Proof.
  simpl. case_bool_decide as Hc.
  - injection Hc as <-. by rewrite decide_True.
  - rewrite decide_False; [done|]. intros <-. by apply Hc.
Qed.

Lemma splitFrom_length cur s :
  length (splitFrom "," 0 cur s) = S (commas s).
Proof.
  revert cur. induction s as [|c s IH]; intros cur; [done|].
  rewrite splitFrom_comma_cons. cbn [commas].
  case_bool_decide; simpl; by rewrite IH.
Qed.

Lemma splitFrom_no_comma cur s :
  commas s = 0 → splitFrom "," 0 cur s = [cur +:+ s].
Proof.
  revert cur. induction s as [|c s IH]; intros cur Hs.
  - by rewrite app_empty_r.
  - rewrite splitFrom_comma_cons. cbn [commas] in Hs.
    case_bool_decide; [done|]. simpl in Hs.
    rewrite IH by done. by rewrite app_assoc_s.
Qed.

Lemma splitFrom_field cur r rest :
  commas r = 0 →
  splitFrom "," 0 cur (r +:+ "," +:+ rest)
  = (cur +:+ r) :: splitFrom "," 0 "" rest.
Proof.
  revert cur. induction r as [|c r IH]; intros cur Hr.
  - rewrite app_nil, app_empty_r, app_cons, app_nil.
    rewrite splitFrom_comma_cons. by rewrite bool_decide_eq_true_2.
  - rewrite app_cons, splitFrom_comma_cons. cbn [commas] in Hr.
    case_bool_decide; [done|]. simpl in Hr.
    rewrite IH by done. by rewrite app_assoc_s.
Qed.

Lemma Split_pair r l :
  commas r = 0 → commas l = 0 → Split (r +:+ "," +:+ l) "," = [r; l].
Proof.
  intros Hr Hl. unfold Split. rewrite splitFrom_field by done.
  by rewrite splitFrom_no_comma.
Qed.

Lemma one_comma_split v :
  commas v = 1 → ∃ r l, v = r +:+ "," +:+ l ∧ commas r = 0 ∧ commas l = 0.
Proof.
  induction v as [|c v IH]; [done|]. cbn [commas].
  case_bool_decide as Hc; simpl.
  - intros Hv. injection Hc as ->. exists "", v.
    split; [done|]. split; [done | lia].
  - intros Hv. destruct (IH Hv) as (r & l & -> & Hr & Hl).
    exists (String c r), l. split; [done|]. split; [|done].
    cbn [commas]. by rewrite bool_decide_eq_false_2.
Qed.

(** X1: [New] uses an entry exactly when it holds exactly one comma: the
    entry then splits at that comma into its two fields, and any other
    entry changes neither the host tables nor the prefix table. *)
Theorem New_entry_shape (v : string) :
  (wellFormed v ↔ commas v = 1)
  ∧ (commas v = 1 →
     ∃ r l, v = r +:+ "," +:+ l ∧ commas r = 0 ∧ commas l = 0
            ∧ Split v "," = [r; l])
  ∧ (commas v ≠ 1 → ∀ p, addHostPair p v = p ∧ addPrefixPair p v = p).
Proof.
  assert (Hwf : wellFormed v ↔ commas v = 1).
  { unfold wellFormed, Split. rewrite splitFrom_length. lia. }
  split; [done|]. split.
  - intros Hv. destruct (one_comma_split v Hv) as (r & l & -> & Hr & Hl).
    exists r, l. by rewrite Split_pair.
  - intros Hv p. rewrite <- Hwf in Hv.
    by rewrite addHostPair_malformed, addPrefixPair_malformed.
Qed.

Lemma New_entry_shape_witness :
  ∃ r l, "yoursite.com:443,127.0.0.1:7777" = r +:+ "," +:+ l
         ∧ commas r = 0 ∧ commas l = 0
         ∧ Split "yoursite.com:443,127.0.0.1:7777" "," = [r; l].
Proof.
  apply (proj1 (proj2 (New_entry_shape "yoursite.com:443,127.0.0.1:7777"))).
  reflexivity.
Defined.

(** In a map filled by successive assignments the last assignment to a
    key is the one that is read. *)
Lemma foldl_insert_last {A} (key val : A → string) (l : list A)
    (m : gmap string string) (k : string) :
  foldl (fun m x => <[key x := val x]> m) m l !! k
  = match last (filter (fun x => key x = k) l) with
    | Some x => Some (val x)
    | None => m !! k
    end.
Proof.
  induction l as [|x l IH] using rev_ind; [done|].
  rewrite foldl_app, filter_app. simpl. rewrite filter_cons, filter_nil.
  destruct (decide (key x = k)) as [<-|Hne].
  - by rewrite lookup_insert_eq, last_snoc.
  - by rewrite lookup_insert_ne, app_nil_r.
Qed.

Lemma LocalMap_last ca hostPairs prefixPairs (k : string) :
  LocalMap (New ca hostPairs prefixPairs) !! k
  = fst <$> last (filter (fun rl => rl.2 = k) (hostPairsOf hostPairs)).
Proof.
  rewrite New_LocalMap, (foldl_insert_last snd fst), lookup_empty.
  by destruct (last _).
Qed.

Lemma RemoteMap_last ca hostPairs prefixPairs (k : string) :
  RemoteMap (New ca hostPairs prefixPairs) !! k
  = snd <$> last (filter (fun rl => rl.1 = k) (hostPairsOf hostPairs)).
Proof.
  rewrite New_RemoteMap, (foldl_insert_last fst snd), lookup_empty.
  by destruct (last _).
Qed.

(** X2: when entries repeat a key the last one wins, in each table on its
    own: [LocalMap] gives a normalized local host the remote host of the
    last entry naming it, [RemoteMap] gives a remote host the normalized
    local host of the last entry naming it, and a key that no entry names
    is absent. *)
Theorem New_last_entry_wins ca hostPairs prefixPairs (k : string) :
  LocalMap (New ca hostPairs prefixPairs) !! k
  = fst <$> last (filter (fun rl => rl.2 = k) (hostPairsOf hostPairs))
  ∧ RemoteMap (New ca hostPairs prefixPairs) !! k
    = snd <$> last (filter (fun rl => rl.1 = k) (hostPairsOf hostPairs)).
Proof. split; [apply LocalMap_last | apply RemoteMap_last]. Qed.

Lemma foldl_addPrefixPair_map p l :
  PrefixMap (foldl addPrefixPair p l)
  = foldl (fun m ab => <[ab.1 := (default [] (m !! ab.1) ++ [ab.2])%list]> m)
      (PrefixMap p) (prefixPairsOf l).
Proof.
  revert p. induction l as [|v l IH]; intros p; simpl; [done|].
  rewrite IH. unfold prefixPairsOf. simpl. unfold addPrefixPair, prefixPairOf.
  by destruct (Split v ",") as [|a [|b [|c l']]].
Qed.

Lemma foldl_append_lookup (l : list (string * string))
    (m : gmap string (list string)) (h : string) :
  foldl (fun m ab => <[ab.1 := (default [] (m !! ab.1) ++ [ab.2])%list]> m) m l
    !! h
  = match (filter (fun ab => ab.1 = h) l).*2 with
    | [] => m !! h
    | ps => Some (default [] (m !! h) ++ ps)%list
    end.
Proof.
  induction l as [|[a b] l IH] using rev_ind; [done|].
  rewrite foldl_app, filter_app, fmap_app. simpl.
  rewrite filter_cons, filter_nil. simpl.
  destruct (decide (a = h)) as [->|Hne].
  - rewrite lookup_insert_eq, IH. simpl.
    destruct ((filter (fun ab => ab.1 = h) l).*2) as [|x xs]; simpl.
    + done.
    + by rewrite <- (assoc_L (++)).
  - rewrite lookup_insert_ne by done. rewrite IH. simpl.
    by rewrite app_nil_r.
Qed.

Lemma PrefixMap_lookup ca hostPairs prefixPairs (h : string) :
  PrefixMap (New ca hostPairs prefixPairs) !! h
  = match (filter (fun ab => ab.1 = h) (prefixPairsOf prefixPairs)).*2 with
    | [] => None
    | ps => Some ps
    end.
Proof.
  unfold New. rewrite foldl_addPrefixPair_map.
  destruct (foldl_addHostPair_fields (mkProxy ca "" ∅ ∅ ∅ ∅) hostPairs)
    as (_ & _ & -> & _). simpl.
  rewrite foldl_append_lookup, lookup_empty. by destruct (_.*2).
Qed.

(** X3: the prefixes recorded for a remote host are the second fields of
    the well-formed [prefix_pair] entries that name it, in the order
    given and with repetitions; a host that no entry names has no key. *)
Theorem New_PrefixMap ca hostPairs prefixPairs (h : string) :
  default [] (PrefixMap (New ca hostPairs prefixPairs) !! h)
  = (filter (fun ab => ab.1 = h) (prefixPairsOf prefixPairs)).*2
  ∧ (PrefixMap (New ca hostPairs prefixPairs) !! h = None
     ↔ ∀ ab, ab ∈ prefixPairsOf prefixPairs → ab.1 ≠ h).
Proof.
  rewrite PrefixMap_lookup. split.
  - by destruct (_.*2).
  - destruct ((filter (fun ab => ab.1 = h) (prefixPairsOf prefixPairs)).*2)
      as [|x xs] eqn:Hf.
    + split; [|done]. intros _ ab Hin Hab.
      apply fmap_nil_inv in Hf.
      assert (Hin' : ab ∈ filter (fun ab => ab.1 = h)
                             (prefixPairsOf prefixPairs))
        by (by apply list_elem_of_filter).
      rewrite Hf in Hin'. by apply elem_of_nil in Hin'.
    + split; [done|]. intros Hnone.
      assert (Hin : x ∈ (filter (fun ab => ab.1 = h)
                           (prefixPairsOf prefixPairs)).*2)
        by (rewrite Hf; left).
      apply list_elem_of_fmap in Hin as ([a b] & _ & Hin).
      apply list_elem_of_filter in Hin as [Ha Hin]. by destruct (Hnone _ Hin).
Qed.

End tables_more.

(** ** More on the terminating proxy *)

Module httpsproxy_more.
Import httpsproxy props httpsproxy_facts.
Section httpsproxy_more.
Context {W : Type} `{GoLib W}.

(** The loop ends in one of two ways. *)
Lemma ServeHTTP_range_cases hp ps req :
  (Exists (fun prefix => HasPrefix (url.Path (http.URL req)) prefix = true) ps
   ∧ ServeHTTP_range hp ps req = serveVia ViaNext (next hp) req)
  ∨ (Forall (fun prefix => HasPrefix (url.Path (http.URL req)) prefix = false) ps
     ∧ ServeHTTP_range hp ps req = serveVia ViaTarget (target hp) req).
Proof.
  destruct (decide (Exists (fun prefix =>
              HasPrefix (url.Path (http.URL req)) prefix = true) ps))
    as [Hex|Hnex].
  - left. split; [done|]. by apply ServeHTTP_range_next.
  - right. apply not_Exists_Forall in Hnex; [|intros x; apply _].
    assert (Hall : Forall (fun prefix =>
              HasPrefix (url.Path (http.URL req)) prefix = false) ps).
    { eapply Forall_impl; [exact Hnex|]. simpl. intros x Hx.
      by destruct (HasPrefix _ x). }
    split; [done|]. by apply ServeHTTP_range_target.
Qed.

(** X4: a proxy that [New] has built and [StartServer] has not started has
    no handlers: serving any request with it panics, whatever its
    prefixes. *)
Theorem ServeHTTP_unstarted_panics cert targetHost nextHost prefixes req :
  ServeHTTP (New cert targetHost nextHost prefixes).1 req
  = Panics "invalid memory address or nil pointer dereference".
Proof.
  unfold ServeHTTP.
  by destruct (ServeHTTP_range_cases
                 (New cert targetHost nextHost prefixes).1
                 (httpsproxy.prefixes (New cert targetHost nextHost prefixes).1)
                 req)
    as [[_ ->]|[_ ->]].
Qed.

(** X5: which handler serves a request depends on the prefixes as a set,
    not on their order or repetition; adding prefixes only moves requests
    from [target] to [next]; the empty prefix moves every request. *)
Theorem ServeHTTP_prefix_set hp hp' req
    (Htarget : target hp' = target hp) (Hnext : next hp' = next hp)
    (Hsub : ∀ prefix, prefix ∈ prefixes hp → prefix ∈ prefixes hp') :
  (∀ out, ServeHTTP hp req = Returns (ViaNext, out) →
          ServeHTTP hp' req = Returns (ViaNext, out))
  ∧ ((∀ prefix, prefix ∈ prefixes hp' → prefix ∈ prefixes hp) →
     ServeHTTP hp' req = ServeHTTP hp req)
  ∧ ("" ∈ prefixes hp → ServeHTTP hp req = serveVia ViaNext (next hp) req).
Proof.
  unfold ServeHTTP.
  assert (Hup : ∀ h h' : Proxy, target h' = target h → next h' = next h →
    (∀ prefix, prefix ∈ prefixes h → prefix ∈ prefixes h') →
    Exists (fun prefix =>
      HasPrefix (url.Path (http.URL req)) prefix = true) (prefixes h) →
    ServeHTTP_range h' (prefixes h') req = ServeHTTP_range h (prefixes h) req).
  { intros h h' Ht Hn Hs Hex. rewrite (ServeHTTP_range_next h) by done.
    rewrite ServeHTTP_range_next; [by rewrite Hn|].
    apply Exists_exists in Hex as (x & Hin & Hx).
    apply Exists_exists. exists x. split; [by apply Hs | done]. }
  split; [|split].
  - intros out Hout. rewrite <- Hout.
    destruct (ServeHTTP_range_cases hp (prefixes hp) req)
      as [[Hex _]|[_ Hall]]; [by apply Hup|].
    rewrite Hall in Hout. unfold serveVia in Hout. by destruct (target hp).
  - intros Hsup.
    destruct (ServeHTTP_range_cases hp (prefixes hp) req)
      as [[Hex _]|[Hall Hhp]]; [by apply Hup|].
    destruct (ServeHTTP_range_cases hp' (prefixes hp') req)
      as [[Hex' _]|[_ Hhp']].
    + symmetry. by apply Hup.
    + by rewrite Hhp, Hhp', Htarget.
  - intros Hin. apply ServeHTTP_range_next. apply Exists_exists.
    by exists "".
Qed.

(** X6: [StartServer] binds one listener in every case and launches a
    server exactly when it returns no error: then the server's handler is
    the proxy as returned, with both reverse proxies set, and the address
    is not empty; otherwise nothing is launched, the address is empty and
    the proxy is as before. *)
Theorem StartServer_launches_iff hp (s : state W) :
  let r := StartServer hp s in
  ∃ tl, trace r.2 = (trace s ++ EvListen "tcp" ":0" :: tl)%list
  ∧ match r.1.2.2 with
    | None =>
        tl = [EvServeTLS r.1.2.1 r.1.1]
        ∧ r.1.2.1 ≠ "" ∧ is_Some (target r.1.1) ∧ is_Some (next r.1.1)
        ∧ targetHost r.1.1 = targetHost hp ∧ nextHost r.1.1 = nextHost hp
        ∧ prefixes r.1.1 = prefixes hp ∧ cfg r.1.1 = cfg hp
    | Some e =>
        tl = [] ∧ r.1.2.1 = "" ∧ r.1.1 = hp
    end.
Proof.
  intros r. subst r.
  destruct (StartServer hp s) as [[hp' [addr [e|]]] s'] eqn:Hstart; simpl.
  - apply StartServer_err in Hstart as (-> & -> & ->).
    by exists [].
  - apply StartServer_ok in Hstart
      as (l & w' & tu & nu & _ & _ & _ & Ht & Hn & Hc & Hth & Hnh & Hp & -> & ->).
    eexists. simpl. split; [done|]. split; [done|].
    rewrite Ht, Hn. repeat split; try done; by eexists.
Qed.

End httpsproxy_more.

Lemma ServeHTTP_prefix_set_witness :
  ServeHTTP
    (mkProxy (cfg sample.sampleStarted) (target sample.sampleStarted)
       "localhost:7777" (next sample.sampleStarted) "yoursite.com:443"
       ["/static"; "/api"; "/api"])
    (sample.getReq "https" "yoursite.com:443" "/api/v1")
  = Returns (ViaNext,
             http.mkRequest "GET"
               (url.mkURL "https" "yoursite.com:443" "/api/v1" "" "")
               "yoursite.com:443" []).
Proof.
  apply (proj1 (ServeHTTP_prefix_set sample.sampleStarted _
                  (sample.getReq "https" "yoursite.com:443" "/api/v1")
                  eq_refl eq_refl
                  ltac:(intros prefix Hin; vm_compute in Hin;
                        apply list_elem_of_singleton in Hin as ->;
                        by_compute))).
  vm_compute. reflexivity.
Defined.

End httpsproxy_more.

(** ** More on the fake root authority *)

Module fakeca_more.
Import fakeca props fakeca_facts.
Section fakeca_more.
Context {W : Type} `{GoLib W}.

(** The steps of [NewCA], with the world after each. *)
Lemma NewCA_run (s : state W) :
  ∃ t1 w1 t2 w2 r w3,
    time_Now (world s) = (t1, w1) ∧ time_Now w1 = (t2, w2)
    ∧ rsa_GenerateKey 4096 w2 = (r, w3)
    ∧ let caCert := rootTemplate (time_AddDate t1 0 0 (-30))
                      (time_AddDate t2 10 0 0) in
      match r with
      | inr err =>
          NewCA s = ((None, Some err),
                     mkState w3 (trace s ++ [EvGenerateKey 4096]))
      | inl caPrivKey =>
          ∃ r' w4,
            x509_CreateCertificate caCert caCert
              (rsa.PublicKey_ caPrivKey) caPrivKey w3 = (r', w4)
            ∧ (NewCA s).2
              = mkState w4 (trace s ++ [EvGenerateKey 4096;
                                        EvCreateCertificate caCert caCert])
            ∧ match r' with
              | inr err => (NewCA s).1 = (None, Some err)
              | inl caBytes =>
                  (NewCA s).1
                  = (Some (mkFakeCA caPrivKey caCert
                             (pem_Encode
                                (pem.mkBlock "RSA PRIVATE KEY" []
                                   (x509_MarshalPKCS1PrivateKey caPrivKey))).1
                             (pem_Encode
                                (pem.mkBlock "CERTIFICATE" [] caBytes)).1),
                     None)
              end
      end.
Proof.
  unfold NewCA, bind, call, quiet, emit, ret. simpl.
  destruct (time_Now (world s)) as [t1 w1] eqn:Ht1. simpl.
  destruct (time_Now w1) as [t2 w2] eqn:Ht2. simpl.
  destruct (rsa_GenerateKey 4096 w2) as [r w3] eqn:Hk. simpl.
  exists t1, w1, t2, w2, r, w3. do 3 (split; [done|]).
  destruct r as [caPrivKey|err]; simpl; [|done].
  match goal with
  | |- context [x509_CreateCertificate ?a ?b ?c ?d w3] =>
      destruct (x509_CreateCertificate a b c d w3) as [r' w4] eqn:Hc
  end. simpl.
  exists r', w4. split; [done|].
  rewrite <- !(assoc_L (++)). simpl.
  destruct r' as [caBytes|err]; simpl; [|done].
  destruct (pem_Encode (pem.mkBlock "CERTIFICATE" _ _)) as [caPEM e1].
  by destruct (pem_Encode (pem.mkBlock "RSA PRIVATE KEY" _ _)) as [keyPEM e2].
Qed.

(** X7: [NewCA] returns an authority or an error, never both and never
    neither. The authority's certificate is the template of a certificate
    authority (serial number 2019, key usages digital signature and
    certificate signing), signed once, with itself as parent and with the
    key that was generated; its PEM fields are the encodings of that
    certificate and key. An error is the one of key generation or of
    signing. *)
Theorem NewCA_self_signed (s : state W) :
  let r := NewCA s in
  match r.1 with
  | (Some ca, None) =>
      x509.IsCA (Cert ca) = true
      ∧ x509.BasicConstraintsValid (Cert ca) = true
      ∧ x509.SerialNumber (Cert ca) = 2019%Z
      ∧ Z.testbit (x509.KeyUsage (Cert ca)) 0 = true
      ∧ Z.testbit (x509.KeyUsage (Cert ca)) 5 = true
      ∧ x509.Subject (Cert ca) = newName
      ∧ issued (trace r.2) = (issued (trace s) ++ [(Cert ca, Cert ca)])%list
      ∧ ∃ w3 w4 caBytes,
          x509_CreateCertificate (Cert ca) (Cert ca)
            (rsa.PublicKey_ (PrivKey ca)) (PrivKey ca) w3 = (inl caBytes, w4)
          ∧ CertPEM ca = (pem_Encode (pem.mkBlock "CERTIFICATE" [] caBytes)).1
          ∧ PrivKeyPEM ca
            = (pem_Encode (pem.mkBlock "RSA PRIVATE KEY" []
                             (x509_MarshalPKCS1PrivateKey (PrivKey ca)))).1
  | (None, Some e) =>
      (∃ w2 w3, rsa_GenerateKey 4096 w2 = (inr e, w3))
      ∨ (∃ template key w3 w4,
           x509.IsCA template = true
           ∧ x509_CreateCertificate template template (rsa.PublicKey_ key)
               key w3 = (inr e, w4))
  | _ => False
  end.
Proof.
  intros r. subst r.
  destruct (NewCA_run s) as (t1 & w1 & t2 & w2 & k & w3 & _ & _ & Hg & Hk).
  destruct k as [caPrivKey|err].
  - destruct Hk as (r' & w4 & Hc & -> & Hr). destruct r' as [caBytes|err].
    + rewrite Hr. simpl. rewrite issued_app. simpl.
      repeat (split; [done|]). by exists w3, w4, caBytes.
    + rewrite Hr. simpl. right. eexists _, caPrivKey, w3, w4.
      split; [|exact Hc]. reflexivity.
  - rewrite Hk. simpl. left. by exists w2, w3.
Qed.


(** X9: [FromKeyPair] returns an authority exactly when both inputs hold
    a block of the right type that parses; the authority then holds the
    parsed key and certificate and the two inputs as they were given. *)
Theorem FromKeyPair_loads_iff keyPEM certPEM ca :
  FromKeyPair keyPEM certPEM = Returns (Some ca, None)
  ↔ ∃ keyBlock certBlock,
      (pem_Decode keyPEM).1 = Some keyBlock
      ∧ pem.Type_ keyBlock = "RSA PRIVATE KEY"
      ∧ x509_ParsePKCS1PrivateKey (pem.Bytes keyBlock)
        = (Some (PrivKey ca), None)
      ∧ (pem_Decode certPEM).1 = Some certBlock
      ∧ pem.Type_ certBlock = "CERTIFICATE"
      ∧ x509_ParseCertificate (pem.Bytes certBlock) = inl (Cert ca)
      ∧ PrivKeyPEM ca = keyPEM ∧ CertPEM ca = certPEM.
Proof.
  unfold FromKeyPair.
  destruct (pem_Decode keyPEM) as [[keyBlock|] rest] eqn:Hk; simpl.
  2: { split; [done | by intros (kb & cb & ? & _)]. }
  destruct (pem_Decode certPEM) as [certDER rest'] eqn:Hc; simpl.
  case_bool_decide as Ht; simpl.
  2: { split; [done|]. intros (kb & cb & [= <-] & Hty & _). done. }
  destruct (x509_ParsePKCS1PrivateKey (pem.Bytes keyBlock))
    as [privKey [e|]] eqn:Hp.
  { split; [done|]. intros (kb & cb & [= <-] & _ & Hp' & _). congruence. }
  destruct privKey as [key|].
  2: { split; [done|]. intros (kb & cb & [= <-] & _ & Hp' & _). congruence. }
  destruct certDER as [certBlock|].
  2: { split; [done | by intros (kb & cb & _ & _ & _ & ? & _)]. }
  case_bool_decide as Htc; simpl.
  2: { split; [done|]. intros (kb & cb & _ & _ & _ & [= <-] & Hty & _). done. }
  destruct (x509_ParseCertificate (pem.Bytes certBlock)) as [cert|e] eqn:Hpc.
  - split.
    + intros [= <-]. by exists keyBlock, certBlock.
    + intros (kb & cb & [= <-] & _ & Hp' & [= <-] & _ & Hpc' & Hkp & Hcp).
      destruct ca as [k c kp cp]. simpl in *. congruence.
  - split; [done|].
    intros (kb & cb & _ & _ & _ & [= <-] & _ & Hpc' & _). congruence.
Qed.

(** X10: a key input that does not load decides the result on its own:
    [FromKeyPair] returns one and the same error whatever the certificate
    input is, and does not panic. *)
Theorem FromKeyPair_bad_key keyPEM
    (Hbad : ∀ keyBlock key,
       (pem_Decode keyPEM).1 = Some keyBlock →
       pem.Type_ keyBlock = "RSA PRIVATE KEY" →
       x509_ParsePKCS1PrivateKey (pem.Bytes keyBlock) ≠ (Some key, None)) :
  ∃ e, ∀ certPEM, FromKeyPair keyPEM certPEM = Returns (None, Some e).
Proof.
  unfold FromKeyPair.
  destruct (pem_Decode keyPEM) as [[keyBlock|] rest] eqn:Hk; simpl in *;
    [|by eexists].
  case_bool_decide as Ht; simpl; [|by eexists].
  destruct (x509_ParsePKCS1PrivateKey (pem.Bytes keyBlock))
    as [privKey [e|]] eqn:Hp; [by eexists|].
  destruct privKey as [key|].
  - by destruct (Hbad keyBlock key eq_refl Ht).
  - exists "invalid certificate". intros certPEM.
    by destruct (pem_Decode certPEM).
Qed.

(** X11: [NewCert] returns an error together with two nil slices, or no
    error together with the PEM encodings of a certificate and of a key;
    the key is generated by this call, one key for each call, and the
    certificate is signed with the authority's private key over the new
    public key, for the names given and not as a certificate authority. *)
Theorem NewCert_result_shape ca dnsNames (s : state W) :
  let r := NewCert ca dnsNames s in
  (∃ tl, trace r.2
         = (trace s ++ EvNewCert dnsNames :: EvGenerateKey 4096 :: tl)%list
         ∧ (tl = [] ∨ ∃ template, tl = [EvCreateCertificate template (Cert ca)]))
  ∧ match r.1 with
    | (certPEM, privKeyPEM, Some e) => certPEM = [] ∧ privKeyPEM = []
    | (certPEM, privKeyPEM, None) =>
        ∃ certPrivKey w2 w3 template certBytes w4,
          rsa_GenerateKey 4096 w2 = (inl certPrivKey, w3)
          ∧ x509_CreateCertificate template (Cert ca)
              (rsa.PublicKey_ certPrivKey) (PrivKey ca) w3
            = (inl certBytes, w4)
          ∧ x509.DNSNames template = dnsNames
          ∧ x509.IsCA template = false
          ∧ certPEM = (pem_Encode (pem.mkBlock "CERTIFICATE" [] certBytes)).1
          ∧ privKeyPEM
            = (pem_Encode (pem.mkBlock "RSA PRIVATE KEY" []
                             (x509_MarshalPKCS1PrivateKey certPrivKey))).1
    end.
Proof.
  intros r. subst r. split; [apply NewCert_trace|].
  destruct (NewCert_run ca dnsNames s)
    as (t1 & w1 & t2 & w2 & k & w3 & _ & _ & Hg & Hk).
  destruct k as [certPrivKey|err]; [|by rewrite Hk].
  destruct Hk as (r' & w4 & Hc & _ & Hr).
  destruct r' as [certBytes|err]; [|by rewrite Hr].
  rewrite Hr. simpl.
  destruct (pem_Encode (pem.mkBlock "CERTIFICATE" [] certBytes))
    as [certBuf [e|]] eqn:He; simpl; [done|].
  eexists certPrivKey, w2, w3, _, certBytes, w4.
  split; [exact Hg|]. split; [exact Hc|]. by rewrite He.
Qed.

(** X12: under an authority made by [NewCA], every certificate that
    [NewCert] signs has the authority's certificate as parent, is not
    itself a certificate authority and may not sign certificates, has
    another serial number than the authority, and carries the very
    subject name of the authority. *)
Theorem NewCert_under_NewCA (s : state W) ca s1 dnsNames (s2 : state W)
    (Hca : NewCA s = ((Some ca, None), s1)) :
  Forall (fun tp =>
      tp.2 = Cert ca
      ∧ x509.IsCA tp.2 = true ∧ x509.IsCA tp.1 = false
      ∧ Z.testbit (x509.KeyUsage tp.1) 5 = false
      ∧ x509.SerialNumber tp.1 ≠ x509.SerialNumber tp.2
      ∧ x509.Subject tp.1 = x509.Subject tp.2)
    (drop (length (issued (trace s2)))
       (issued (trace (NewCert ca dnsNames s2).2)))
  ∧ ((NewCert ca dnsNames s2).1.2 = None →
     length (issued (trace (NewCert ca dnsNames s2).2))
     = S (length (issued (trace s2)))).
Proof.
  assert (Hroot : ∃ t1 t2, Cert ca = rootTemplate t1 t2).
  { destruct (NewCA_run s) as (t1 & w1 & t2 & w2 & k & w3 & _ & _ & _ & Hk).
    destruct k as [caPrivKey|err]; [|by rewrite Hk in Hca].
    destruct Hk as (r' & w4 & _ & _ & Hr). rewrite Hca in Hr. simpl in Hr.
    destruct r' as [caBytes|err]; [|done]. injection Hr as ->. by eexists _, _. }
  destruct Hroot as (t1 & t2 & Hroot).
  destruct (NewCert_run ca dnsNames s2)
    as (u1 & w1 & u2 & w2 & k & w3 & _ & _ & _ & Hk).
  destruct k as [certPrivKey|err].
  - destruct Hk as (r' & w4 & _ & -> & Hr). simpl.
    rewrite issued_app, drop_app_length, length_app. simpl. split.
    + repeat constructor; simpl; try done; rewrite Hroot; done.
    + intros _. lia.
  - rewrite Hk. simpl. rewrite issued_app, drop_app_length. simpl.
    split; [constructor | done].
Qed.

End fakeca_more.


Lemma FromKeyPair_bad_key_witness :
  ∃ e, ∀ certPEM, FromKeyPair [Byte.x43; Byte.x30] certPEM
                  = Returns (None, Some e).
Proof.
  apply FromKeyPair_bad_key. intros keyBlock key [= <-]. discriminate.
Defined.

Lemma NewCert_under_NewCA_witness :
  ∃ ca s1,
    NewCA sample.state0 = ((Some ca, None), s1)
    ∧ length (issued (trace (NewCert ca ["yoursite.com"] s1).2))
      = S (length (issued (trace s1))).
Proof.
  destruct (NewCA sample.state0) as [[[ca|] [e|]] s1] eqn:Hrun;
    try (vm_compute in Hrun; discriminate).
  exists ca, s1. split; [done|].
  apply (proj2 (NewCert_under_NewCA sample.state0 ca s1 ["yoursite.com"] s1
                  Hrun)).
  injection Hrun as <- <-. reflexivity.
Defined.

End fakeca_more.

(** ** More on the dispatcher, one request at a time *)

Module connectproxy_more.
Import connectproxy props New_facts connectproxy_facts tables_more.
Section connectproxy_more.
Context {W : Type} `{GoLib W}.

(** What a successful creation leaves behind. *)
Lemma createProxy_ok p req (s : state W) k p' addr s' :
  RemoteMap p !! http.Host req = Some k →
  ProxyMap p !! k = None →
  maybeStartHTTPSProxy p req s = ((p', (addr, None)), s') →
  ∃ info listener,
    p' = setProxyMap p (<[k := info]> (ProxyMap p))
    ∧ proxyHost info = addr
    ∧ addr = "localhost:" +:+ pretty (net.Port listener)
    ∧ (certPEM info, privKeyPEM info, None)
      = (fakeca.NewCert (FakeCA p) [url_Hostname (http.URL req)] s).1
    ∧ httpsproxy.targetHost (httpsProxy info) = k
    ∧ httpsproxy.nextHost (httpsProxy info) = http.Host req
    ∧ httpsproxy.prefixes (httpsProxy info)
      = default [] (PrefixMap p !! http.Host req)
    ∧ is_Some (httpsproxy.target (httpsProxy info))
    ∧ is_Some (httpsproxy.next (httpsProxy info))
    ∧ started (trace s') = (started (trace s) ++ [(k, addr)])%list.
Proof.
  intros Hmapped Hunseen Hrun.
  unfold maybeStartHTTPSProxy in Hrun. rewrite Hmapped, Hunseen in Hrun.
  unfold createProxy, bind, ret in Hrun.
  pose proof (NewCert_started (FakeCA p) [url_Hostname (http.URL req)] s) as Hst.
  destruct (fakeca.NewCert (FakeCA p) [url_Hostname (http.URL req)] s)
    as [[[c1 c2] [e|]] s1]; [done|]. simpl in Hst.
  destruct (tls_X509KeyPair c1 c2) as [serverCert|e]; [|done].
  cbn [httpsproxy.New] in Hrun.
  destruct (httpsproxy.StartServer _ s1) as [[hp' [a [e|]]] s2] eqn:Hstart;
    [done|].
  injection Hrun as <- <- <-.
  apply httpsproxy_facts.StartServer_ok in Hstart
    as (listener & w' & tu & nu & _ & _ & _ & Ht & Hn & _ & Hth & Hnh & Hp
        & Ha & ->).
  simpl in *. eexists _, listener. split; [done|]. simpl.
  rewrite Ht, Hn, Hth, Hnh, Hp.
  repeat (split; [done|]).
  rewrite started_app, Hst. simpl. by rewrite Hth.
Qed.

(** How [maybeStartHTTPSProxy] can leave the dispatcher: as it was, or
    with one record added under a key that had none. *)
Lemma maybeStartHTTPSProxy_shape p req (s : state W) :
  let r := maybeStartHTTPSProxy p req s in
  r.1.1 = p
  ∨ ∃ k info, RemoteMap p !! http.Host req = Some k
              ∧ ProxyMap p !! k = None
              ∧ r.1.1 = setProxyMap p (<[k := info]> (ProxyMap p))
              ∧ r.1.2 = (proxyHost info, None)
              ∧ proxyHost info ≠ ""
              ∧ httpsproxy.targetHost (httpsProxy info) = k
              ∧ is_Some (httpsproxy.target (httpsProxy info))
              ∧ is_Some (httpsproxy.next (httpsProxy info)).
Proof.
  unfold maybeStartHTTPSProxy, ret.
  destruct (RemoteMap p !! http.Host req) as [k|] eqn:Hk; [|by left].
  destruct (ProxyMap p !! k) as [info|] eqn:Hinfo; [by left|].
  destruct (createProxy p req k s) as [[p' [addr [e|]]] s'] eqn:Hc.
  - left. unfold createProxy, bind, ret in Hc.
    destruct (fakeca.NewCert _ _ s) as [[[c1 c2] [e1|]] s1];
      [by injection Hc as <-|].
    destruct (tls_X509KeyPair c1 c2) as [serverCert|e2];
      [|by injection Hc as <-].
    cbn [httpsproxy.New] in Hc.
    destruct (httpsproxy.StartServer _ s1) as [[hp' [a [e3|]]] s2];
      [by injection Hc as <-|done].
  - right.
    destruct (createProxy_ok p req s k p' addr s' Hk Hinfo)
      as (info & listener & -> & <- & Ha & _ & Hth & _ & _ & Ht & Hn & _).
    { unfold maybeStartHTTPSProxy. by rewrite Hk, Hinfo. }
    exists k, info. repeat (split; [done|]). split; [|done].
    by rewrite Ha.
Qed.

(** X13: the last [host_pair] entry decides where its local host is
    redirected, under every spelling of that host that [hostKey]
    identifies with the one in the entry: a request that is neither a
    CONNECT nor for the shutdown path is redirected to the entry's remote
    host, whatever entries came before. *)
Theorem redirect_follows_last_entry ca earlier r l prefixPairs w req
    (s : state W)
    (Hr : commas r = 0) (Hl : commas l = 0)
    (Hhost : hostKey (http.Host req) = hostKey l)
    (Hmethod : http.Method req ≠ http.MethodConnect)
    (Hpath : url.Path (http.URL req) ≠ "/quitquitquit") :
  let p := New ca (earlier ++ [r +:+ "," +:+ l]) prefixPairs in
  ServeHTTP p w req s
  = ((p, Returns (Redirect (url_String (redirectURL (http.URL req) r)) 307)), s).
Proof.
  intros p.
  assert (Hlocal : LocalMap p !! hostKey (http.Host req) = Some r).
  { unfold p. rewrite LocalMap_last.
    unfold hostPairsOf. rewrite omap_app. simpl.
    unfold hostPairOf at 2. rewrite Split_pair by done. simpl.
    rewrite filter_app, filter_cons, filter_nil. simpl.
    rewrite decide_True by done. by rewrite last_snoc. }
  unfold ServeHTTP, ret.
  rewrite bool_decide_eq_false_2 by done.
  rewrite bool_decide_eq_true_2 by done.
  unfold redirectToHTTPS. by rewrite Hlocal.
Qed.

(** X14: when [maybeStartHTTPSProxy] returns an address for a mapped host
    that had no record, the dispatcher has exactly one record more, under
    the local host: its address is the one returned, ["localhost:"]
    followed by the listener's port; its certificate and key are the ones
    [NewCert] issued for the host name of the request URL; its proxy
    stands in for the local host, passes through to the requested host
    with the prefixes configured for that host, and has both handlers
    set; and exactly one server was launched, for that key at that
    address. *)
Theorem maybeStartHTTPSProxy_creates p req (s : state W) k p' addr s'
    (Hmapped : RemoteMap p !! http.Host req = Some k)
    (Hunseen : ProxyMap p !! k = None)
    (Hrun : maybeStartHTTPSProxy p req s = ((p', (addr, None)), s')) :
  ∃ info listener,
    p' = setProxyMap p (<[k := info]> (ProxyMap p))
    ∧ proxyHost info = addr
    ∧ addr = "localhost:" +:+ pretty (net.Port listener)
    ∧ (certPEM info, privKeyPEM info, None)
      = (fakeca.NewCert (FakeCA p) [url_Hostname (http.URL req)] s).1
    ∧ httpsproxy.targetHost (httpsProxy info) = k
    ∧ httpsproxy.nextHost (httpsProxy info) = http.Host req
    ∧ httpsproxy.prefixes (httpsProxy info)
      = default [] (PrefixMap p !! http.Host req)
    ∧ is_Some (httpsproxy.target (httpsProxy info))
    ∧ is_Some (httpsproxy.next (httpsProxy info))
    ∧ started (trace s') = (started (trace s) ++ [(k, addr)])%list.
Proof. by apply createProxy_ok. Qed.

(** X15: remote hosts that are mapped to the same local host share one
    proxy: after the first of them has had its proxy created, a request
    for any of them is answered with that proxy's address and changes
    nothing, although the proxy passes through to the first host and its
    certificate was issued for the first host's name. *)
Theorem maybeStartHTTPSProxy_shares p req1 req2 (s : state W) k p1 addr s1
    (Hmapped1 : RemoteMap p !! http.Host req1 = Some k)
    (Hmapped2 : RemoteMap p !! http.Host req2 = Some k)
    (Hunseen : ProxyMap p !! k = None)
    (Hrun : maybeStartHTTPSProxy p req1 s = ((p1, (addr, None)), s1)) :
  ∀ s2, maybeStartHTTPSProxy p1 req2 s2 = ((p1, (addr, None)), s2)
        ∧ ∃ info, ProxyMap p1 !! k = Some info
                  ∧ httpsproxy.nextHost (httpsProxy info) = http.Host req1
                  ∧ (certPEM info, privKeyPEM info, None)
                    = (fakeca.NewCert (FakeCA p)
                         [url_Hostname (http.URL req1)] s).1.
Proof.
  destruct (createProxy_ok p req1 s k p1 addr s1 Hmapped1 Hunseen Hrun)
    as (info & listener & -> & <- & _ & Hcert & _ & Hnext & _).
  intros s2. split.
  - unfold maybeStartHTTPSProxy, ret. simpl.
    by rewrite Hmapped2, lookup_insert_eq.
  - exists info. simpl. by rewrite lookup_insert_eq.
Qed.

(** X16: once [maybeStartHTTPSProxy] has returned without error,
    [handleConnect] dials the address returned, or the requested host
    when that address is empty, and nothing else; the dispatcher stays as
    resolution left it whatever the dial and the hijack do, so a proxy
    just created outlives a failed dial. *)
Theorem handleConnect_dials p w req (s : state W) p' addr s1
    (Hrun : maybeStartHTTPSProxy p req s = ((p', (addr, None)), s1)) :
  let target := if bool_decide (addr ≠ "") then addr else http.Host req in
  ∃ out s' tl,
    handleConnect p w req s = ((p', out), s')
    ∧ trace s' = (trace s1 ++ EvDial "tcp" target :: tl)%list
    ∧ Forall tunnelEvent tl
    ∧ match net_Dial "tcp" target (world s1) with
      | (inr e, _) =>
          out = Returns (Error e http.StatusServiceUnavailable) ∧ tl = []
      | (inl targetConn, w1) =>
          if Hijacker w
          then match http_Hijack w1 with
               | (inl clientConn, _) =>
                   out = Returns (Tunnelled target)
                   ∧ tl = [EvWriteHeader 200; EvHijack;
                           EvTunnel targetConn clientConn;
                           EvTunnel clientConn targetConn]
               | (inr _, _) => out = Fatal "HTTP hijacking failed"
               end
          else out = Fatal "HTTP server doesn't support hijacking connection"
      end.
Proof.
  intros target. unfold handleConnect, bind, call, emit, ret.
  rewrite Hrun. simpl. fold target.
  destruct (net_Dial "tcp" target (world s1)) as [[targetConn|e] w1].
  - simpl. destruct (Hijacker w); simpl.
    + destruct (http_Hijack w1) as [[clientConn|e] w2]; simpl.
      * eexists _, _, _. split; [done|].
        rewrite <- !(assoc_L (++)). simpl. split; [done|].
        split; [|done]. by repeat constructor.
      * eexists _, _, _. split; [done|].
        rewrite <- !(assoc_L (++)). simpl. split; [done|].
        split; [|done]. by repeat constructor.
    + eexists _, _, _. split; [done|].
      rewrite <- !(assoc_L (++)). simpl. split; [done|].
      split; [|done]. by repeat constructor.
  - eexists _, _, []. split; [done|]. simpl. split; [done|].
    split; [constructor | done].
Qed.

(** X17: serving a request never changes the authority or the three
    configuration tables, never removes or replaces a record of
    [ProxyMap], and adds a record only for a CONNECT request, under the
    local host its host is mapped to; the record added has an address
    that is not empty and a started proxy for that local host. *)
Theorem ServeHTTP_tables_fixed p w req (s : state W) :
  let p' := (ServeHTTP p w req s).1.1 in
  FakeCA p' = FakeCA p ∧ redirectAddr p' = redirectAddr p
  ∧ LocalMap p' = LocalMap p ∧ RemoteMap p' = RemoteMap p
  ∧ PrefixMap p' = PrefixMap p
  ∧ (∀ k info, ProxyMap p !! k = Some info → ProxyMap p' !! k = Some info)
  ∧ (∀ k info, ProxyMap p' !! k = Some info → ProxyMap p !! k = None →
       http.Method req = http.MethodConnect
       ∧ RemoteMap p !! http.Host req = Some k
       ∧ proxyHost info ≠ ""
       ∧ httpsproxy.targetHost (httpsProxy info) = k
       ∧ is_Some (httpsproxy.target (httpsProxy info))
       ∧ is_Some (httpsproxy.next (httpsProxy info))).
Proof.
  assert (Hsame : ∀ q : Proxy, q = p →
    FakeCA q = FakeCA p ∧ redirectAddr q = redirectAddr p
    ∧ LocalMap q = LocalMap p ∧ RemoteMap q = RemoteMap p
    ∧ PrefixMap q = PrefixMap p
    ∧ (∀ k info, ProxyMap p !! k = Some info → ProxyMap q !! k = Some info)
    ∧ (∀ k info, ProxyMap q !! k = Some info → ProxyMap p !! k = None →
         http.Method req = http.MethodConnect
         ∧ RemoteMap p !! http.Host req = Some k
         ∧ proxyHost info ≠ ""
         ∧ httpsproxy.targetHost (httpsProxy info) = k
         ∧ is_Some (httpsproxy.target (httpsProxy info))
         ∧ is_Some (httpsproxy.next (httpsProxy info)))).
  { intros q ->. repeat (split; [done|]). intros k info Hk Hn. congruence. }
  unfold ServeHTTP.
  case_bool_decide as Hquit; [by apply Hsame|].
  case_bool_decide as Hmethod; [by apply Hsame|].
  assert (Hm : http.Method req = http.MethodConnect).
  { destruct (decide (http.Method req = http.MethodConnect)); [done|].
    by destruct Hmethod. }
  assert (Hp : (handleConnect p w req s).1.1
               = (maybeStartHTTPSProxy p req s).1.1).
  { unfold handleConnect, bind, call, emit, ret.
    destruct (maybeStartHTTPSProxy p req s) as [[q [addr [e|]]] s1]; [done|].
    simpl. destruct (net_Dial _ _ _) as [[c|e] w1]; [|done]. simpl.
    destruct (Hijacker w); [|done]. simpl.
    by destruct (http_Hijack _) as [[c'|e] w2]. }
  simpl. rewrite Hp.
  destruct (maybeStartHTTPSProxy_shape p req s)
    as [->|(k & info & Hk & Hnone & -> & _ & Ha & Hth & Ht & Hn)];
    [by apply Hsame|].
  simpl. repeat (split; [done|]). split.
  - intros k' info' Hk'. rewrite lookup_insert_ne; [done | congruence].
  - intros k' info' Hk' Hnone'. destruct (decide (k = k')) as [<-|Hne].
    + rewrite lookup_insert_eq in Hk'. by injection Hk' as <-.
    + rewrite lookup_insert_ne in Hk' by done. congruence.
Qed.

(** X18: in a dispatcher built by [New], the proxy created for a remote
    host is given the prefixes of the [prefix_pair] entries that name the
    host, in their order: with no such entry it passes nothing through,
    and with an entry whose prefix is empty it passes everything
    through. *)
Theorem created_proxy_prefixes ca hostPairs prefixPairs req (s : state W)
    k p' addr s'
    (Hmapped : RemoteMap (New ca hostPairs prefixPairs) !! http.Host req
               = Some k)
    (Hrun : maybeStartHTTPSProxy (New ca hostPairs prefixPairs) req s
            = ((p', (addr, None)), s')) :
  ∃ info,
    ProxyMap p' !! k = Some info
    ∧ httpsproxy.prefixes (httpsProxy info)
      = (filter (fun ab => ab.1 = http.Host req)
           (prefixPairsOf prefixPairs)).*2
    ∧ ((∀ ab, ab ∈ prefixPairsOf prefixPairs → ab.1 ≠ http.Host req) →
       ∀ r, ∃ out, httpsproxy.ServeHTTP (httpsProxy info) r
                   = Returns (httpsproxy.ViaTarget, out))
    ∧ ((http.Host req, "") ∈ prefixPairsOf prefixPairs →
       ∀ r, ∃ out, httpsproxy.ServeHTTP (httpsProxy info) r
                   = Returns (httpsproxy.ViaNext, out)).
Proof.
  assert (Hunseen : ProxyMap (New ca hostPairs prefixPairs) !! k = None)
    by (by rewrite New_ProxyMap, lookup_empty).
  destruct (createProxy_ok _ req s k p' addr s' Hmapped Hunseen Hrun)
    as (info & listener & -> & _ & _ & _ & _ & _ & Hp & [t Ht] & [n Hn] & _).
  assert (Hps : httpsproxy.prefixes (httpsProxy info)
                = (filter (fun ab => ab.1 = http.Host req)
                     (prefixPairsOf prefixPairs)).*2).
  { rewrite Hp, PrefixMap_lookup. by destruct (_.*2). }
  exists info. simpl. rewrite lookup_insert_eq. split; [done|].
  split; [done|]. unfold httpsproxy.ServeHTTP. rewrite Hps. split.
  - intros Hnone r.
    assert (Hnil : (filter (fun ab => ab.1 = http.Host req)
                      (prefixPairsOf prefixPairs)).*2 = []).
    { destruct (filter _ _) as [|ab l] eqn:Hf; [done|].
      assert (Hin : ab ∈ filter (fun ab => ab.1 = http.Host req)
                            (prefixPairsOf prefixPairs))
        by (rewrite Hf; left).
      apply list_elem_of_filter in Hin as [Hab Hin].
      by destruct (Hnone ab Hin). }
    rewrite Hnil. simpl. rewrite Ht. by eexists.
  - intros Hin r. rewrite httpsproxy_facts.ServeHTTP_range_next.
    + rewrite Hn. by eexists.
    + apply Exists_exists. exists "". split; [|done].
      apply list_elem_of_fmap. exists (http.Host req, "").
      split; [done|]. by apply list_elem_of_filter.
Qed.

End connectproxy_more.

Lemma redirect_follows_last_entry_witness :
  ServeHTTP (New sample.ca (["old.example:443,localhost:7777"]
                            ++ ["yoursite.com:443" +:+ "," +:+ "127.0.0.1:7777"])
               [])
    (mkResponseWriter true)
    (sample.getReq "http" "localhost:7777" "/index.html") sample.state0
  = ((New sample.ca (["old.example:443,localhost:7777"]
                     ++ ["yoursite.com:443" +:+ "," +:+ "127.0.0.1:7777"]) [],
      Returns (Redirect "https://yoursite.com:443/index.html" 307)),
     sample.state0).
Proof.
  etransitivity;
    [apply (redirect_follows_last_entry sample.ca
              ["old.example:443,localhost:7777"] "yoursite.com:443"
              "127.0.0.1:7777" [] (mkResponseWriter true)
              (sample.getReq "http" "localhost:7777" "/index.html")
              sample.state0);
       first [reflexivity | discriminate]
    | vm_compute; reflexivity].
Defined.

(** The first CONNECT for the mapped host, in the sample world. *)
Lemma sampleFirst_ok :
  maybeStartHTTPSProxy sample.dispatcher
    (sample.connectReq "yoursite.com:443") sample.state0
  = (((maybeStartHTTPSProxy sample.dispatcher
         (sample.connectReq "yoursite.com:443") sample.state0).1.1,
      ("localhost:40004", None)),
     (maybeStartHTTPSProxy sample.dispatcher
        (sample.connectReq "yoursite.com:443") sample.state0).2).
Proof. vm_compute. reflexivity. Defined.

Lemma maybeStartHTTPSProxy_creates_witness :
  ∃ info,
    ProxyMap (maybeStartHTTPSProxy sample.dispatcher
                (sample.connectReq "yoursite.com:443") sample.state0).1.1
      !! "localhost:7777" = Some info
    ∧ proxyHost info = "localhost:40004"
    ∧ httpsproxy.prefixes (httpsProxy info) = ["/api"].
Proof.
  destruct (maybeStartHTTPSProxy_creates sample.dispatcher
              (sample.connectReq "yoursite.com:443") sample.state0
              "localhost:7777" _ _ _
              ltac:(vm_compute; reflexivity) ltac:(vm_compute; reflexivity)
              sampleFirst_ok)
    as (info & listener & Hp & Ha & _ & _ & _ & _ & Hps & _).
  exists info. rewrite Hp. simpl. rewrite lookup_insert_eq.
  split; [done|]. split; [done|]. rewrite Hps. vm_compute. reflexivity.
Defined.

Lemma created_proxy_prefixes_witness :
  ∃ info,
    ProxyMap (maybeStartHTTPSProxy sample.dispatcher
                (sample.connectReq "yoursite.com:443") sample.state0).1.1
      !! "localhost:7777" = Some info
    ∧ httpsproxy.prefixes (httpsProxy info) = ["/api"].
Proof.
  destruct (created_proxy_prefixes sample.ca
              ["yoursite.com:443,127.0.0.1:7777"] ["yoursite.com:443,/api"]
              (sample.connectReq "yoursite.com:443") sample.state0
              "localhost:7777" _ _ _
              ltac:(vm_compute; reflexivity) sampleFirst_ok)
    as (info & Hinfo & Hps & _).
  exists info. split; [exact Hinfo|]. rewrite Hps. vm_compute. reflexivity.
Defined.

Lemma handleConnect_dials_witness :
  (handleConnect sample.dispatcher (mkResponseWriter true)
     (sample.connectReq "yoursite.com:443") sample.state0).1.2
  = Returns (Tunnelled "localhost:40004").
Proof.
  destruct (handleConnect_dials sample.dispatcher (mkResponseWriter true)
              (sample.connectReq "yoursite.com:443") sample.state0 _ _ _
              sampleFirst_ok)
    as (out & s' & tl & -> & _ & _ & Hout).
  vm_compute in Hout. by destruct Hout as [-> _].
Defined.

(** Two remote hosts for one local host, the first CONNECT being for
    [a.com:443]. *)
Lemma sampleShared_ok :
  maybeStartHTTPSProxy (New sample.ca sample.clashing [])
    (sample.connectReq "a.com:443") sample.state0
  = (((maybeStartHTTPSProxy (New sample.ca sample.clashing [])
         (sample.connectReq "a.com:443") sample.state0).1.1,
      ("localhost:40004", None)),
     (maybeStartHTTPSProxy (New sample.ca sample.clashing [])
        (sample.connectReq "a.com:443") sample.state0).2).
Proof. vm_compute. reflexivity. Defined.

Lemma maybeStartHTTPSProxy_shares_witness :
  (maybeStartHTTPSProxy
     (maybeStartHTTPSProxy (New sample.ca sample.clashing [])
        (sample.connectReq "a.com:443") sample.state0).1.1
     (sample.connectReq "b.com:443") sample.state0).1.2
  = ("localhost:40004", None).
Proof.
  destruct (maybeStartHTTPSProxy_shares (New sample.ca sample.clashing [])
              (sample.connectReq "a.com:443") (sample.connectReq "b.com:443")
              sample.state0 "localhost:7777" _ _ _
              ltac:(vm_compute; reflexivity) ltac:(vm_compute; reflexivity)
              ltac:(vm_compute; reflexivity) sampleShared_ok sample.state0)
    as [-> _].
  reflexivity.
Defined.

End connectproxy_more.

(** ** More on the goroutines of [maybeStartHTTPSProxy] *)

Module concurrent_more.
Import connectproxy props connectproxy_facts concurrent_facts.
Section concurrent_more.
Context {W : Type} `{GoLib W}.

Lemma advance_exclusive (sh sh' : @shared W) r a a' :
  advance sh r a = Some (sh', a') →
  exclusive (mutex sh) → exclusive (mutex sh').
Proof.
  unfold exclusive. intros Hadv. destruct sh as [p [rd wr] s].
  destruct a; simpl in Hadv;
    repeat match type of Hadv with
           | match ?x with _ => _ end = _ => destruct x eqn:?
           | (if ?x then _ else _) = _ => destruct x eqn:?
           | (let (_, _) := ?x in _) = _ => destruct x eqn:?
           end;
    try discriminate; injection Hadv as <- <-; simpl in *;
    intros Hex Hw; try done; try (rewrite Hex by done; done).
Qed.

Lemma exclusive_reachable p0 (w : W) reqs m :
  rtc step (initial p0 w reqs) m → exclusive (mutex (sh m)).
Proof.
  intros Hreach.
  apply (rtc_ind_r (R := step) (fun m => exclusive (mutex (sh m)))
           (initial p0 w reqs)); [done | | done].
  intros m1 m2 _ Hstep Hex. destruct Hstep as [m1 i m2 Hstep|m1 w']; [|done].
  unfold stepG in Hstep.
  destruct (threads m1 !! i) as [g|]; [|done].
  destruct (advance _ _ _) as [[sh' a']|] eqn:Hadv; [|done].
  injection Hstep as <-. simpl. by eapply advance_exclusive.
Qed.

Lemma fuel_initial (reqs : list http.Request) :
  fuel (map (fun r => mkGoroutine r AtEntry) reqs) = 12 * length reqs.
Proof.
  induction reqs as [|r reqs IH]; [done|].
  unfold fuel in *. simpl. rewrite IH. lia.
Qed.

Lemma fuel_reachable p0 (w : W) reqs m :
  rtc step (initial p0 w reqs) m → (fuel (threads m) ≤ 12 * length reqs)%nat.
Proof.
  intros Hreach.
  apply (rtc_ind_r (R := step)
           (fun m => (fuel (threads m) ≤ 12 * length reqs)%nat)
           (initial p0 w reqs)); [| | done].
  - simpl. by rewrite fuel_initial.
  - intros m1 m2 _ Hstep Hle. destruct Hstep as [m1 i m2 Hstep|m1 w']; [|done].
    apply stepG_decreases in Hstep. lia.
Qed.

Lemma runs_fuel schedule (m m' : @machine W) :
  runs schedule m = Some m' →
  (length schedule + fuel (threads m') ≤ fuel (threads m))%nat.
Proof.
  revert m. induction schedule as [|i schedule IH]; intros m Hrun.
  - injection Hrun as <-. simpl. lia.
  - simpl in Hrun. destruct (stepG m i) as [m1|] eqn:Hstep; [|done].
    apply IH in Hrun. apply stepG_decreases in Hstep. simpl. lia.
Qed.

(** X19: in every state the goroutines can reach, at most one of them is
    between [Lock] and [Unlock], and while one is, none is between
    [RLock] and [RUnlock]: [ProxyMap] is never read or written while it
    is being written. *)
Theorem ProxyMap_never_raced p0 (w : W) reqs m i gi
    (Hfresh : ProxyMap p0 = ∅)
    (Hreach : rtc step (initial p0 w reqs) m)
    (Hi : threads m !! i = Some gi)
    (Hcs : inCS (at_ gi) = true) :
  ∀ j gj, threads m !! j = Some gj →
          inRS (at_ gj) = false ∧ (inCS (at_ gj) = true → j = i).
Proof.
  pose proof (Inv_reachable p0 w reqs m Hfresh Hreach) as HInv.
  pose proof (exclusive_reachable p0 w reqs m Hreach) as Hex.
  pose proof HInv as [_ Hrd Hwr _ _].
  pose proof (count_ge inCS (threads m) i gi Hi) as Hge.
  rewrite Hcs in Hge. simpl in Hge.
  assert (Hw : writer (mutex (sh m)) = true).
  { destruct (writer (mutex (sh m))); [done|]. simpl in Hwr. lia. }
  intros j gj Hj. split.
  - pose proof (count_ge inRS (threads m) j gj Hj) as Hr.
    rewrite <- Hrd, (Hex Hw) in Hr.
    destruct (inRS (at_ gj)); [simpl in Hr; lia | done].
  - intros Hcj. by destruct (cs_alone p0 m i gi j gj HInv Hi Hcs Hj Hcj).
Qed.

(** X20: the goroutines never wait for each other for good: in every
    state they can reach, either all have returned or one of them can
    move; no schedule is longer than twelve statements for each request;
    and when all have returned the mutex is free, whichever way each of
    them left. *)
Theorem maybeStartHTTPSProxy_never_stuck p0 (w : W) reqs m
    (Hfresh : ProxyMap p0 = ∅)
    (Hreach : rtc step (initial p0 w reqs) m) :
  ((∀ i g, threads m !! i = Some g → ∃ result, at_ g = Done result)
   ∨ ∃ i m', stepG m i = Some m')
  ∧ (∀ schedule m', runs schedule m = Some m' →
       (length schedule ≤ 12 * length reqs)%nat)
  ∧ ((∀ i g, threads m !! i = Some g → ∃ result, at_ g = Done result) →
     mutex (sh m) = mkRWMutex 0 false).
Proof.
  pose proof (Inv_reachable p0 w reqs m Hfresh Hreach) as HInv.
  split; [by eapply Inv_progress|]. split.
  { intros schedule m' Hrun. apply runs_fuel in Hrun.
    pose proof (fuel_reachable p0 w reqs m Hreach). lia. }
  intros Hall. pose proof HInv as [_ Hrd Hwr _ _].
  assert (Hzero : ∀ P, P = inRS ∨ P = inCS → count P (threads m) = 0).
  { intros P HP. destruct (decide (count P (threads m) = 0)) as [|Hne]; [done|].
    destruct (count_exists P (threads m)) as (i & g & Hi & Hg); [lia|].
    destruct (Hall i g Hi) as [result Hat]. rewrite Hat in Hg.
    by destruct HP as [-> | ->]. }
  rewrite (Hzero inRS) in Hrd by auto. rewrite (Hzero inCS) in Hwr by auto.
  destruct (mutex (sh m)) as [rd wr]. simpl in *. subst rd.
  by destruct wr.
Qed.

End concurrent_more.

Lemma ProxyMap_never_raced_witness :
  Forall (fun gj => inRS (at_ gj) = false)
    (threads (run (take 12 sample.sampleSchedule)
                (initial sample.dispatcher sample.world0
                   sample.sampleRequests))).
Proof.
  apply Forall_lookup. intros j gj Hj.
  refine (proj1 (ProxyMap_never_raced sample.dispatcher sample.world0
                   sample.sampleRequests _ 0 _ _ _ _ _ j gj Hj)).
  - vm_compute. reflexivity.
  - apply run_reachable.
  - vm_compute. reflexivity.
  - reflexivity.
Defined.

Lemma maybeStartHTTPSProxy_never_stuck_witness :
  mutex (sh sample.sampleRun) = mkRWMutex 0 false.
Proof.
  apply (maybeStartHTTPSProxy_never_stuck sample.dispatcher sample.world0
           sample.sampleRequests sample.sampleRun).
  - vm_compute. reflexivity.
  - apply run_reachable.
  - intros i g Hi.
    assert (Hall : Forall (fun g => ∃ result, at_ g = Done result)
                     (threads sample.sampleRun)).
    { vm_compute. repeat constructor; by eexists. }
    exact (proj1 (Forall_lookup _ _) Hall i g Hi).
Defined.

End concurrent_more.
